(** * Calibration comparison of [te_metal_plots.py]

    A shallow embedding of the numerical core of
    [analysis/deep2_r23_o32/plotting/te_metal_plots.py]: the three
    calibration functions, the detection-flag selection done with
    [np.where], and the pooled residual statistics of [jiang_comparison].

    NumPy values are either 0-d (a scalar) or 1-d (a column of a table).
    Python exceptions are the [Raise] branch of [result].

    The code is embedded twice. The first embedding carries exact rationals
    ([Q]) in the arrays and serves for what does not depend on rounding:
    shapes, indices, which rows are selected, which error is raised, and
    which expression a value comes from. The second one writes the
    calibrations and the pooled statistics over a number type given as a
    parameter and reads them in binary64 (primitive floats), the arithmetic
    of the code, and in exact arithmetic. *)

From Stdlib Require Import PrimFloat FloatOps SpecFloat.
From Stdlib Require Import String.
From Stdlib Require Import QArith List Arith Lia Sorted.
From Stdlib Require Import Reals Qreals.
From Stdlib Require Import Qabs.

Set Warnings "-inexact-float".
Import ListNotations.

Open Scope Q_scope.

(** ** Python exceptions *)

Inductive exn : Type :=
| ValueError (msg : string)
| IndexError (msg : string).

Inductive result (A : Type) : Type :=
| Ok (a : A)
| Raise (e : exn).

Arguments Ok {A} a.
Arguments Raise {A} e.

Definition bind {A B : Type} (r : result A) (k : A -> result B) : result B :=
  match r with
  | Ok a => k a
  | Raise e => Raise e
  end.

Notation "x <- r ;; k" := (bind r (fun x => k))
  (at level 61, r at next level, right associativity).

Definition raises {A : Type} (r : result A) : Prop :=
  exists e, r = Raise e.

Definition returns {A : Type} (r : result A) : Prop :=
  exists a, r = Ok a.

(** ** NumPy values *)

(** What the calibrations are called with: a float (or 0-d array) or a 1-d
    array. *)
Inductive ndarray : Type :=
| Scalar (x : Q)
| Vec (xs : list Q).

(** What [np.poly1d] is handed: a Python number, a list of numbers or a list
    of lists of numbers. *)
Inductive array_like : Type :=
| Num (x : Q)
| Seq (xs : list Q)
| SeqSeq (rows : list (list Q)).

Definition ndim (a : array_like) : nat :=
  match a with
  | Num _ => 0
  | Seq _ => 1
  | SeqSeq _ => 2
  end.

Definition broadcast_msg : string :=
  "operands could not be broadcast together".

Definition poly1d_msg : string := "Polynomial must be 1d only.".

Definition index_msg : string := "index is out of bounds".

Fixpoint zip_with (f : Q -> Q -> Q) (xs ys : list Q) : list Q :=
  match xs, ys with
  | x :: xs', y :: ys' => f x y :: zip_with f xs' ys'
  | _, _ => []
  end.

(** Element-wise binary operation with NumPy's broadcasting rule for shapes
    [()] and [(n,)]: equal lengths pair up, a length-1 operand is stretched,
    anything else is a [ValueError]. *)
Definition broadcast2 (f : Q -> Q -> Q) (a b : ndarray) : result ndarray :=
  match a, b with
  | Scalar x, Scalar y => Ok (Scalar (f x y))
  | Scalar x, Vec ys => Ok (Vec (map (f x) ys))
  | Vec xs, Scalar y => Ok (Vec (map (fun x => f x y) xs))
  | Vec xs, Vec ys =>
      if Nat.eqb (length xs) (length ys) then Ok (Vec (zip_with f xs ys))
      else
        match xs, ys with
        | [x], _ => Ok (Vec (map (f x) ys))
        | _, [y] => Ok (Vec (map (fun x => f x y) xs))
        | _, _ => Raise (ValueError broadcast_msg)
        end
  end.

Definition np_add : ndarray -> ndarray -> result ndarray := broadcast2 Qplus.
Definition np_sub : ndarray -> ndarray -> result ndarray := broadcast2 Qminus.
Definition np_mul : ndarray -> ndarray -> result ndarray := broadcast2 Qmult.

Definition zeros_like (a : ndarray) : ndarray :=
  match a with
  | Scalar _ => Scalar 0
  | Vec xs => Vec (map (fun _ => 0) xs)
  end.

(** ** [np.poly1d] *)

(** [np.trim_zeros(c, trim='f')]: leading zeros are dropped. *)
Fixpoint trim_zeros_f (c : list Q) : list Q :=
  match c with
  | [] => []
  | x :: r => if Qeq_bool x 0 then trim_zeros_f r else c
  end.

(** [poly1d.__init__]: [atleast_1d] (a number becomes a one-element
    array), the check [if c_or_r.ndim > 1: raise ValueError] (a list of
    lists has [ndim] 2), [trim_zeros] and the empty case. The result is the
    coefficient list, highest power first. *)
Definition poly1d (c_or_r : array_like) : result (list Q) :=
  match c_or_r with
  | SeqSeq _ => Raise (ValueError poly1d_msg)
  | Num x => let c := trim_zeros_f [x] in
             Ok (match c with [] => [0] | _ => c end)
  | Seq xs => let c := trim_zeros_f xs in
              Ok (match c with [] => [0] | _ => c end)
  end.

(** [np.polyval(p, x)]: [y = zeros_like(x)], then [y = y * x + pv] for each
    coefficient [pv]. *)
Fixpoint polyval_loop (p : list Q) (x y : ndarray) : result ndarray :=
  match p with
  | [] => Ok y
  | pv :: r =>
      t <- np_mul y x ;;
      y' <- np_add t (Scalar pv) ;;
      polyval_loop r x y'
  end.

Definition polyval (p : list Q) (x : ndarray) : result ndarray :=
  polyval_loop p x (zeros_like x).

(** ** The calibrations *)

Definition jiang_coeff : list Q := [-24.135; 6.1532; -0.37866; -0.147; -7.071].
Definition bian_coeff : list Q := [138.0430; -54.8284; 7.2954; -0.32293].

(** [coeff[i]] for the module-level lists; the indices used are constants
    within range. *)
Definition item (c : list Q) (i : nat) : Q := nth i c 0.

Definition jiang_calibration (metal_det lo32 : ndarray) : result ndarray :=
  p_jiang <- poly1d (Seq [item jiang_coeff 2; item jiang_coeff 1;
                          item jiang_coeff 0]) ;;
  a <- polyval p_jiang metal_det ;;
  b <- np_add (Scalar (item jiang_coeff 4)) metal_det ;;
  c <- np_mul (Scalar (item jiang_coeff 3)) b ;;
  d <- np_mul c lo32 ;;
  np_add a d.

Definition bian_calibration_r23 (metal_det : ndarray) : result ndarray :=
  p_bian <- poly1d (SeqSeq [rev bian_coeff]) ;;
  polyval p_bian metal_det.

Definition bian_calibration_o32 (metal_det : ndarray) : result ndarray :=
  t <- np_sub metal_det (Scalar 8.54) ;;
  np_mul (Scalar ((-1) / 0.59)) t.

(** ** Selection by detection flag *)

(** [np.where(mask)[0]]: the positions of the true entries, in increasing
    order. *)
Fixpoint np_where_from (i : nat) (mask : list bool) : list nat :=
  match mask with
  | [] => []
  | b :: r =>
      if b then i :: np_where_from (S i) r else np_where_from (S i) r
  end.

Definition np_where (mask : list bool) : list nat := np_where_from 0 mask.

(** [valid == v] on a column. *)
Definition np_equal (valid : list Q) (v : Q) : list bool :=
  map (fun x => Qeq_bool x v) valid.

(** The two lines shared by [jiang_comparison], [bian_comparison] and
    [plotting_te_metal]:
    [detect = np.where(valid == 1.0)[0]] and
    [rlimit = np.where(valid == 0.5)[0]]. *)
Definition select_detections (valid : list Q) : result (list nat * list nat) :=
  let detect := np_where (np_equal valid 1.0) in
  let rlimit := np_where (np_equal valid 0.5) in
  Ok (detect, rlimit).

(** [a[idx]] with an integer index array: every index must be in range. *)
Fixpoint take {A : Type} (a : list A) (idx : list nat) : result (list A) :=
  match idx with
  | [] => Ok []
  | i :: r =>
      match nth_error a i with
      | Some x => rest <- take a r ;; Ok (x :: rest)
      | None => Raise (IndexError index_msg)
      end
  end.

(** ** Pooled statistics *)

(** The statistics of this first embedding are the exact-arithmetic reading
    of [np.median], [np.average] and [np.std]; they carry the pooled array
    through [jiang_comparison]. The binary64 statistics are
    [B64.np_median], [B64.np_average] and [B64.np_std] below. *)

Definition flatten (a : ndarray) : list Q :=
  match a with
  | Scalar x => [x]
  | Vec xs => xs
  end.

(** [np.concatenate((a, b, c), axis=None)]. *)
Definition np_concatenate3 (a b c : ndarray) : list Q :=
  flatten a ++ flatten b ++ flatten c.

Definition qsum (l : list Q) : Q := fold_right Qplus 0 l.

(** [np.mean] and [np.average] without weights; [None] is the [nan] NumPy
    gives for an empty array. *)
Definition np_mean (l : list Q) : option Q :=
  match l with
  | [] => None
  | _ => Some (qsum l / inject_Z (Z.of_nat (length l)))
  end.

Definition np_average : list Q -> option Q := np_mean.

(** [np.var] with [ddof = 0]: the mean of the squared deviations. *)
Definition np_var (l : list Q) : option Q :=
  match np_mean l with
  | None => None
  | Some m =>
      let x := map (fun a => a - m) l in
      Some (qsum (map (fun d => d * d) x) / inject_Z (Z.of_nat (length l)))
  end.

(** [np.std] is the square root of [np.var]. *)
Definition np_std (l : list Q) : option R :=
  match np_var l with
  | None => None
  | Some v => Some (sqrt (Q2R v))
  end.

Fixpoint insert_sorted (x : Q) (l : list Q) : list Q :=
  match l with
  | [] => [x]
  | y :: r => if Qle_bool x y then x :: l else y :: insert_sorted x r
  end.

Definition np_sort (l : list Q) : list Q := fold_right insert_sorted [] l.

(** [part[lo:hi]]. *)
Definition slice (l : list Q) (lo hi : nat) : list Q :=
  firstn (hi - lo) (skipn lo l).

(** [np.median]: the mean of the middle slice of the ordered data, one
    element for an odd size and two for an even size. *)
Definition np_median (l : list Q) : option Q :=
  let part := np_sort l in
  let index := Nat.div (length part) 2 in
  if Nat.eqb (Nat.modulo (length part) 2) 1
  then np_mean (slice part index (index + 1))
  else np_mean (slice part (index - 1) (index + 1)).

Record statistics : Type := {
  arr_sum : list Q;
  med0 : option Q;
  avg0 : option Q;
  sig0 : option R
}.

(** Lines 341-345 of [jiang_comparison] (and 435-438 of [bian_comparison]). *)
Definition aggregate (A_comparison B_comparison C_comparison : ndarray)
  : statistics :=
  let s := np_concatenate3 A_comparison B_comparison C_comparison in
  {| arr_sum := s;
     med0 := np_median s;
     avg0 := np_average s;
     sig0 := np_std s |}.

(** ** [jiang_comparison] *)

(** A row of [bin_validation.revised.tbl]. *)
Record validation_row : Type := { Detection : Q }.

(** A row of [bin_derived_properties.tbl]; [metallicity] is the column
    [12+log(O/H)]. *)
Record derived_row : Type := {
  bin_ID : nat;
  logR23_Composite : Q;
  logO32_Composite : Q;
  metallicity : Q
}.

(** A row of [DEEP2_R23_O32_derived.tbl] or [MACT_R23_O32_derived.tbl]. *)
Record catalog_row : Type := { R23 : Q; O32 : Q; OH : Q }.

Record jiang_result : Type := {
  j_detect : list nat;
  j_rlimit : list nat;
  j_valid_id : list nat;
  j_lR23 : list Q;
  j_lO32 : list Q;
  j_rlr23 : list Q;
  j_rlo32 : list Q;
  j_metal_det : list Q;
  j_metal_rl : list Q;
  j_jR23_det : ndarray;
  j_jR23_DEEP : ndarray;
  j_jR23_MACT : ndarray;
  j_count : nat;
  j_stats : statistics
}.

Section Comparison.

(** [np.log10]; it never raises, and its values play no part in the shape
    of the computation. *)
Variable log10 : Q -> Q.

(** The data path of [jiang_comparison], from the four tables read to the
    statistics printed and annotated; the figure itself is left out. *)
Definition jiang_comparison (validation : list validation_row)
  (temp_tab : list derived_row) (derived derived_mact : list catalog_row)
  : result jiang_result :=
  let bin_id := map bin_ID temp_tab in
  let lr23_comp := map logR23_Composite temp_tab in
  let lo32_comp := map logO32_Composite temp_tab in
  let zmetal := map metallicity temp_tab in
  let valid := map Detection validation in
  sel <- select_detections valid ;;
  let detect := fst sel in
  let rlimit := snd sel in
  valid_id <- take bin_id detect ;;
  lR23 <- take lr23_comp detect ;;
  lO32 <- take lo32_comp detect ;;
  rlr23 <- take lr23_comp rlimit ;;
  rlo32 <- take lo32_comp rlimit ;;
  metal_det <- take zmetal detect ;;
  metal_rl <- take zmetal rlimit ;;
  let er_r23 := map R23 derived in
  let er_o32 := map O32 derived in
  let der_r23 := map log10 er_r23 in
  let der_o32 := map log10 er_o32 in
  let der_oh := map OH derived in
  let er_r23_mact := map R23 derived_mact in
  let er_o32_mact := map O32 derived_mact in
  let der_r23_mact := map log10 er_r23_mact in
  let der_o32_mact := map log10 er_o32_mact in
  let der_oh_mact := map OH derived_mact in
  jR23_det <- jiang_calibration (Vec metal_det) (Vec lO32) ;;
  A_comparison <- np_sub jR23_det (Vec lR23) ;;
  let count := (length metal_det + length der_r23 + length der_r23_mact)%nat in
  jR23_DEEP <- jiang_calibration (Vec der_oh) (Vec der_o32) ;;
  jR23_MACT <- jiang_calibration (Vec der_oh_mact) (Vec der_o32_mact) ;;
  B_comparison <- np_sub jR23_DEEP (Vec der_r23) ;;
  C_comparison <- np_sub jR23_MACT (Vec der_r23_mact) ;;
  Ok {| j_detect := detect;
        j_rlimit := rlimit;
        j_valid_id := valid_id;
        j_lR23 := lR23;
        j_lO32 := lO32;
        j_rlr23 := rlr23;
        j_rlo32 := rlo32;
        j_metal_det := metal_det;
        j_metal_rl := metal_rl;
        j_jR23_det := jR23_det;
        j_jR23_DEEP := jR23_DEEP;
        j_jR23_MACT := jR23_MACT;
        j_count := count;
        j_stats := aggregate A_comparison B_comparison C_comparison |}.

End Comparison.

(** ** The formulas as the specification words them *)

Definition jiang_formula (m y : Q) : Q :=
  -24.135 + 6.1532 * m + -0.37866 * (m * m) + -0.147 * (-7.071 + m) * y.

Definition bian_r23_formula (m : Q) : Q :=
  138.0430 + -54.8284 * m + 7.2954 * (m * m) + -0.32293 * (m * m * m).

Definition bian_o32_formula (m : Q) : Q := - (m - 8.54) / 0.59.

(** What the code computes at one point: Horner's scheme started from zero
    for the quadratic, then the cross term. *)
Definition jiang_point (m y : Q) : Q :=
  (((0 * m + item jiang_coeff 2) * m + item jiang_coeff 1) * m
   + item jiang_coeff 0)
  + item jiang_coeff 3 * (item jiang_coeff 4 + m) * y.

Definition bian_o32_point (m : Q) : Q := ((-1) / 0.59) * (m - 8.54).

(** ** Notions used to state the properties *)

(** Horner's scheme at one point, as [polyval] runs it. *)
Definition horner (p : list Q) (x y : Q) : Q :=
  fold_left (fun acc pv => acc * x + pv) p y.

(** The three recognised categories of the flag column. *)
Definition flag_recognised (v : Q) : Prop := v == 0.0 \/ v == 0.5 \/ v == 1.0.

(** The rows of a table at the true positions of a mask. *)
Fixpoint select {A : Type} (mask : list bool) (a : list A) : list A :=
  match mask, a with
  | b :: mask', x :: a' => if b then x :: select mask' a' else select mask' a'
  | _, _ => []
  end.

(** The residual (estimated minus observed [log R23]) of one composite row
    and of one catalogue row. *)
Definition composite_residual (r : derived_row) : Q :=
  jiang_point (metallicity r) (logO32_Composite r) - logR23_Composite r.

Definition catalog_residual (log10 : Q -> Q) (c : catalog_row) : Q :=
  jiang_point (OH c) (log10 (O32 c)) - log10 (R23 c).

(** ** [bian_comparison] *)

Record bian_result : Type := {
  b_detect : list nat;
  b_rlimit : list nat;
  b_valid_ID : list nat;
  b_lR23 : list Q;
  b_lO32 : list Q;
  b_metal_det : list Q;
  b_jR23_det : ndarray;
  b_jO32_det : ndarray;
  b_bR23_DEEP : ndarray;
  b_bO32_DEEP : ndarray;
  b_bR23_MACT : ndarray;
  b_bO32_MACT : ndarray;
  b_stats_R23 : statistics;
  b_stats_O32 : statistics
}.

Section BianComparison.

Variable log10 : Q -> Q.

(** The data path of [bian_comparison]: the selection, the two Bian
    calibrations on the three data sets, the residuals and the two sets of
    pooled statistics; printing, [np.savez] and the figures are left out. *)
Definition bian_comparison (validation : list validation_row)
  (temp_tab : list derived_row) (derived derived_MACT : list catalog_row)
  : result bian_result :=
  let bin_ID_col := map bin_ID temp_tab in
  let lR23_comp := map logR23_Composite temp_tab in
  let lO32_comp := map logO32_Composite temp_tab in
  let zmetal := map metallicity temp_tab in
  let valid := map Detection validation in
  sel <- select_detections valid ;;
  let detect := fst sel in
  let rlimit := snd sel in
  valid_ID <- take bin_ID_col detect ;;
  lR23 <- take lR23_comp detect ;;
  lO32 <- take lO32_comp detect ;;
  metal_det <- take zmetal detect ;;
  let deep_r23 := map R23 derived in
  let deep_o32 := map O32 derived in
  let deep2_r23 := map log10 deep_r23 in
  let deep2_o32 := map log10 deep_o32 in
  let deep2_oh := map OH derived in
  let er_R23_MACT := map R23 derived_MACT in
  let er_O32_MACT := map O32 derived_MACT in
  let der_R23_MACT := map log10 er_R23_MACT in
  let der_O32_MACT := map log10 er_O32_MACT in
  let der_OH_MACT := map OH derived_MACT in
  jR23_det <- bian_calibration_r23 (Vec metal_det) ;;
  jO32_det <- bian_calibration_o32 (Vec metal_det) ;;
  A_comparison <- np_sub jR23_det (Vec lR23) ;;
  AO_comparison <- np_sub jO32_det (Vec lO32) ;;
  bR23_DEEP <- bian_calibration_r23 (Vec deep2_oh) ;;
  bO32_DEEP <- bian_calibration_o32 (Vec deep2_oh) ;;
  bR23_MACT <- bian_calibration_r23 (Vec der_OH_MACT) ;;
  bO32_MACT <- bian_calibration_o32 (Vec der_OH_MACT) ;;
  B_comparison <- np_sub bR23_DEEP (Vec deep2_r23) ;;
  BO_comparison <- np_sub bO32_DEEP (Vec deep2_o32) ;;
  C_comparison <- np_sub bR23_MACT (Vec der_R23_MACT) ;;
  CO_comparison <- np_sub bO32_MACT (Vec der_O32_MACT) ;;
  Ok {| b_detect := detect;
        b_rlimit := rlimit;
        b_valid_ID := valid_ID;
        b_lR23 := lR23;
        b_lO32 := lO32;
        b_metal_det := metal_det;
        b_jR23_det := jR23_det;
        b_jO32_det := jO32_det;
        b_bR23_DEEP := bR23_DEEP;
        b_bO32_DEEP := bO32_DEEP;
        b_bR23_MACT := bR23_MACT;
        b_bO32_MACT := bO32_MACT;
        b_stats_R23 := aggregate A_comparison B_comparison C_comparison;
        b_stats_O32 := aggregate AO_comparison BO_comparison CO_comparison |}.

End BianComparison.

(** ** Further notions used to state properties *)

(** Two NumPy values of the shapes [()] and [(n,)] can be combined
    element-wise. *)
Definition broadcastable (a b : ndarray) : Prop :=
  match a, b with
  | Vec xs, Vec ys =>
      length xs = length ys \/ length xs = 1%nat \/ length ys = 1%nat
  | _, _ => True
  end.

(** Some row of the validation table flagged [v] lies beyond the last row of
    the derived-properties table. *)
Definition flag_beyond (v : Q) (validation : list validation_row)
  (temp_tab : list derived_row) : Prop :=
  exists i r, nth_error validation i = Some r /\ Detection r == v /\
              (length temp_tab <= i)%nat.

(** * The numerical code over an arbitrary arithmetic

    The calibrations are written once more with the number type and its
    operations as parameters, so that the same expression tree can be read
    in binary64 (what the code computes) and in exact rational arithmetic
    (what its formulas denote). *)

Inductive array (num : Type) : Type :=
| AScalar (x : num)
| AVec (xs : list num).

Arguments AScalar {num} x.
Arguments AVec {num} xs.

Section Arithmetic.

Variable num : Type.
Variables add sub mul div : num -> num -> num.
Variable zero : num.

(** [c == 0], as [np.trim_zeros] tests a coefficient. *)
Variable is_zero : num -> bool.

(** The literals of the source in this arithmetic: [jiang_coeff], [-1],
    [0.59] and [8.54]. *)
Variable coeff : list num.
Variables minus_one c_0_59 c_8_54 : num.

Fixpoint g_zip_with (f : num -> num -> num) (xs ys : list num) : list num :=
  match xs, ys with
  | x :: xs', y :: ys' => f x y :: g_zip_with f xs' ys'
  | _, _ => []
  end.

(** The broadcasting rule of [broadcast2], for this number type. *)
Definition g_broadcast2 (f : num -> num -> num) (a b : array num)
  : result (array num) :=
  match a, b with
  | AScalar x, AScalar y => Ok (AScalar (f x y))
  | AScalar x, AVec ys => Ok (AVec (map (f x) ys))
  | AVec xs, AScalar y => Ok (AVec (map (fun x => f x y) xs))
  | AVec xs, AVec ys =>
      if Nat.eqb (length xs) (length ys) then Ok (AVec (g_zip_with f xs ys))
      else
        match xs, ys with
        | [x], _ => Ok (AVec (map (f x) ys))
        | _, [y] => Ok (AVec (map (fun x => f x y) xs))
        | _, _ => Raise (ValueError broadcast_msg)
        end
  end.

Definition g_zeros_like (a : array num) : array num :=
  match a with
  | AScalar _ => AScalar zero
  | AVec xs => AVec (map (fun _ => zero) xs)
  end.

Fixpoint g_trim_zeros_f (c : list num) : list num :=
  match c with
  | [] => []
  | x :: r => if is_zero x then g_trim_zeros_f r else c
  end.

(** [np.poly1d] on a flat list of coefficients, the shape
    [jiang_calibration] hands it; nothing can be raised for that shape. *)
Definition g_poly1d (c : list num) : list num :=
  match g_trim_zeros_f c with
  | [] => [zero]
  | t => t
  end.

Fixpoint g_polyval_loop (p : list num) (x y : array num)
  : result (array num) :=
  match p with
  | [] => Ok y
  | pv :: r =>
      t <- g_broadcast2 mul y x ;;
      y' <- g_broadcast2 add t (AScalar pv) ;;
      g_polyval_loop r x y'
  end.

Definition g_polyval (p : list num) (x : array num) : result (array num) :=
  g_polyval_loop p x (g_zeros_like x).

Definition g_item (i : nat) : num := nth i coeff zero.

Definition g_jiang_calibration (metal_det lo32 : array num)
  : result (array num) :=
  let p_jiang := g_poly1d [g_item 2; g_item 1; g_item 0] in
  a <- g_polyval p_jiang metal_det ;;
  b <- g_broadcast2 add (AScalar (g_item 4)) metal_det ;;
  c <- g_broadcast2 mul (AScalar (g_item 3)) b ;;
  d <- g_broadcast2 mul c lo32 ;;
  g_broadcast2 add a d.

Definition g_bian_calibration_o32 (metal_det : array num)
  : result (array num) :=
  t <- g_broadcast2 sub metal_det (AScalar c_8_54) ;;
  g_broadcast2 mul (AScalar (div minus_one c_0_59)) t.

(** Horner's scheme at one point, as [g_polyval] runs it. *)
Definition g_horner (p : list num) (x y : num) : num :=
  fold_left (fun acc pv => add (mul acc x) pv) p y.

(** The value computed for one metallicity and one [log O32]: Horner's
    scheme started from zero, then the cross term. *)
Definition g_jiang_point (m y : num) : num :=
  add (add (mul (add (mul (add (mul zero m) (g_item 2)) m) (g_item 1)) m)
           (g_item 0))
      (mul (mul (g_item 3) (add (g_item 4) m)) y).

Definition g_bian_o32_point (m : num) : num :=
  mul (div minus_one c_0_59) (sub m c_8_54).

End Arithmetic.

Arguments g_zip_with {num} f xs ys.
Arguments g_broadcast2 {num} f a b.

(** ** The code in binary64 *)

Module B64.

Open Scope float_scope.

Definition jiang_coeff : list float :=
  [-24.135; 6.1532; -0.37866; -0.147; -7.071].

Definition is_zero (c : float) : bool := c =? 0.

Definition np_add : array float -> array float -> result (array float) :=
  g_broadcast2 PrimFloat.add.
Definition np_sub : array float -> array float -> result (array float) :=
  g_broadcast2 PrimFloat.sub.
Definition np_mul : array float -> array float -> result (array float) :=
  g_broadcast2 PrimFloat.mul.

Definition jiang_calibration (metal_det lo32 : array float)
  : result (array float) :=
  g_jiang_calibration float PrimFloat.add PrimFloat.mul 0 is_zero jiang_coeff
    metal_det lo32.

Definition bian_calibration_o32 (metal_det : array float)
  : result (array float) :=
  g_bian_calibration_o32 float PrimFloat.sub PrimFloat.mul PrimFloat.div
    (-1) 0.59 8.54 metal_det.

Definition jiang_point (m y : float) : float :=
  g_jiang_point float PrimFloat.add PrimFloat.mul 0 jiang_coeff m y.

Definition bian_o32_point (m : float) : float :=
  g_bian_o32_point float PrimFloat.sub PrimFloat.mul PrimFloat.div
    (-1) 0.59 8.54 m.

(** The Jiang formula as the docstring writes it,
    [c[0] + c[1]*m + c[2]*(m*m) + c[3]*(c[4] + m)*y], evaluated in
    binary64 in Python's order. *)
Definition jiang_formula (m y : float) : float :=
  let c i := nth i jiang_coeff 0 in
  c 0%nat + c 1%nat * m + c 2%nat * (m * m) + c 3%nat * (c 4%nat + m) * y.

(** [-(m - 8.54)/0.59] evaluated in binary64. *)
Definition bian_o32_formula (m : float) : float := - (m - 8.54) / 0.59.

(** The second difference with step [h], evaluated in binary64. *)
Definition second_difference (m y h : float) : float :=
  jiang_point (m + 2 * h) y - 2 * jiang_point (m + h) y + jiang_point m y.

(** *** The pooled statistics in binary64 *)

Definition flatten (a : array float) : list float :=
  match a with
  | AScalar x => [x]
  | AVec xs => xs
  end.

Definition np_concatenate3 (a b c : array float) : list float :=
  flatten a ++ flatten b ++ flatten c.

(** [res += a[i]] over the rest of a block. *)
Definition sum_loop (res : float) (l : list float) : float :=
  fold_left PrimFloat.add l res.

(** The unrolled loop of NumPy's pairwise summation: eight accumulators,
    each taking every eighth element, over [blocks] blocks of eight. *)
Fixpoint unrolled (blocks : nat) (r l : list float)
  : list float * list float :=
  match blocks with
  | O => (r, l)
  | S k => unrolled k (g_zip_with PrimFloat.add r (firstn 8 l)) (skipn 8 l)
  end.

(** A block of 8 to 128 elements: the accumulators are combined as
    [((r0+r1)+(r2+r3)) + ((r4+r5)+(r6+r7))], then the elements left over are
    added one by one. *)
Definition block_sum (l : list float) : float :=
  let n := length l in
  let blocks := ((n - n mod 8) / 8 - 1)%nat in
  match unrolled blocks (firstn 8 l) (skipn 8 l) with
  | ([r0; r1; r2; r3; r4; r5; r6; r7], rest) =>
      sum_loop (((r0 + r1) + (r2 + r3)) + ((r4 + r5) + (r6 + r7))) rest
  | (_, _) => nan
  end.

(** NumPy's [pairwise_sum]: fewer than eight elements are added left to
    right, up to 128 go through [block_sum], longer arrays are split near the
    middle at a multiple of eight. [fuel] bounds the depth of the
    splitting. *)
Fixpoint pairwise_sum (fuel : nat) (l : list float) : float :=
  let n := length l in
  if Nat.ltb n 8 then sum_loop 0 l
  else if Nat.leb n 128 then block_sum l
  else
    match fuel with
    | O => block_sum l
    | S f =>
        let n2 := (n / 2)%nat in
        let n2 := (n2 - n2 mod 8)%nat in
        pairwise_sum f (firstn n2 l) + pairwise_sum f (skipn n2 l)
    end.

(** [np.add.reduce] on a 1-d array: the identity 0 plus the pairwise
    sum. *)
Definition np_sum (l : list float) : float := 0 + pairwise_sum (length l) l.

Definition of_nat (n : nat) : float :=
  PrimFloat.of_uint63 (Uint63Axioms.of_Z (Z.of_nat n)).

(** [np.mean] and [np.average] without weights; an empty array gives
    [0/0], which is [nan]. *)
Definition np_mean (l : list float) : float := np_sum l / of_nat (length l).

Definition np_average : list float -> float := np_mean.

(** [np.var] with [ddof = 0]: the mean, the deviations [arr - arrmean],
    their squares, the sum divided by [N]. *)
Definition np_var (l : list float) : float :=
  let arrmean := np_sum l / of_nat (length l) in
  let x := map (fun a => a - arrmean) l in
  let x := map (fun d => d * d) x in
  np_sum x / of_nat (length l).

Definition np_std (l : list float) : float := PrimFloat.sqrt (np_var l).

Fixpoint insert_sorted (x : float) (l : list float) : list float :=
  match l with
  | [] => [x]
  | y :: r => if x <=? y then x :: l else y :: insert_sorted x r
  end.

Definition np_sort (l : list float) : list float :=
  fold_right insert_sorted [] l.

Definition slice (l : list float) (lo hi : nat) : list float :=
  firstn (hi - lo) (skipn lo l).

(** [np.median]: the mean of the middle slice of the ordered data; when the
    data hold a [nan] the result is [nan]. *)
Definition np_median (l : list float) : float :=
  let part := np_sort l in
  let index := Nat.div (length part) 2 in
  let rout :=
    if Nat.eqb (Nat.modulo (length part) 2) 1
    then np_mean (slice part index (index + 1))
    else np_mean (slice part (index - 1) (index + 1)) in
  if existsb PrimFloat.is_nan l then nan else rout.

Record statistics : Type := {
  arr_sum : list float;
  med0 : float;
  avg0 : float;
  sig0 : float
}.

(** Lines 341-345 of [jiang_comparison] in binary64. *)
Definition aggregate (A_comparison B_comparison C_comparison : array float)
  : statistics :=
  let s := np_concatenate3 A_comparison B_comparison C_comparison in
  {| arr_sum := s;
     med0 := np_median s;
     avg0 := np_average s;
     sig0 := np_std s |}.

End B64.

(** ** The same code in exact rational arithmetic *)

Module Exact.

Definition jiang_calibration (metal_det lo32 : array Q) : result (array Q) :=
  g_jiang_calibration Q Qplus Qmult 0 (fun c => Qeq_bool c 0) jiang_coeff
    metal_det lo32.

Definition bian_calibration_o32 (metal_det : array Q) : result (array Q) :=
  g_bian_calibration_o32 Q Qminus Qmult Qdiv (-1) 0.59 8.54 metal_det.

Definition jiang_point (m y : Q) : Q :=
  g_jiang_point Q Qplus Qmult 0 jiang_coeff m y.

Definition bian_o32_point (m : Q) : Q :=
  g_bian_o32_point Q Qminus Qmult Qdiv (-1) 0.59 8.54 m.

End Exact.

(** The rational number a finite binary64 value stands for. *)
Definition F2Q (x : float) : option Q :=
  match Prim2SF x with
  | S754_zero _ => Some 0
  | S754_finite s m e =>
      Some ((if s then -1 else 1) * inject_Z (Zpos m) * (2 ^ e))
  | _ => None
  end.

(** A binary64 value lies within [tol] of a rational. *)
Definition within (tol : Q) (x : float) (q : Q) : Prop :=
  exists qx, F2Q x = Some qx /\ Qabs (qx - q) < tol.

(** * Properties *)

(** ** Broadcasting and polynomial evaluation *)

Lemma zip_with_length (f : Q -> Q -> Q) (xs ys : list Q) :
  length xs = length ys -> length (zip_with f xs ys) = length xs.
Proof.
  revert ys; induction xs as [|x xs IH]; intros [|y ys] H; simpl in *;
    try discriminate; auto.
Qed.

Lemma zip_with_map_l (f : Q -> Q -> Q) (g : Q -> Q) (xs ys : list Q) :
  zip_with f (map g xs) ys = zip_with (fun x y => f (g x) y) xs ys.
Proof.
  revert ys; induction xs as [|x xs IH]; intros [|y ys]; simpl; auto.
  now rewrite IH.
Qed.

Lemma zip_with_diag (f : Q -> Q -> Q) (xs : list Q) :
  zip_with f xs xs = map (fun x => f x x) xs.
Proof.
  induction xs as [|x xs IH]; simpl; auto. now rewrite IH.
Qed.

Lemma zip_with_map_diag (f : Q -> Q -> Q) (k : Q -> Q) (xs : list Q) :
  zip_with f xs (map k xs) = map (fun x => f x (k x)) xs.
Proof.
  induction xs as [|x xs IH]; simpl; auto. now rewrite IH.
Qed.

Lemma zip_with_zip_r (f g : Q -> Q -> Q) (k : Q -> Q) (xs ys : list Q) :
  zip_with f (map k xs) (zip_with g xs ys)
  = zip_with (fun x y => f (k x) (g x y)) xs ys.
Proof.
  revert ys; induction xs as [|x xs IH]; intros [|y ys]; simpl; auto.
  now rewrite IH.
Qed.

Lemma broadcast2_same_length (f : Q -> Q -> Q) (xs ys : list Q) :
  length xs = length ys ->
  broadcast2 f (Vec xs) (Vec ys) = Ok (Vec (zip_with f xs ys)).
Proof.
  intros H; unfold broadcast2. now rewrite H, Nat.eqb_refl.
Qed.

Lemma broadcast2_mismatch (f : Q -> Q -> Q) (xs ys : list Q) :
  length xs <> length ys -> length xs <> 1%nat -> length ys <> 1%nat ->
  broadcast2 f (Vec xs) (Vec ys) = Raise (ValueError broadcast_msg).
Proof.
  intros Hne Hx Hy; unfold broadcast2.
  apply Nat.eqb_neq in Hne; rewrite Hne.
  destruct xs as [|x [|x' xs]]; destruct ys as [|y [|y' ys]];
    simpl in *; try reflexivity; congruence.
Qed.

Lemma broadcast2_stretch_l (f : Q -> Q -> Q) (x : Q) (ys : list Q) :
  length ys <> 1%nat ->
  broadcast2 f (Vec [x]) (Vec ys) = Ok (Vec (map (f x) ys)).
Proof.
  intros Hy; unfold broadcast2.
  destruct (Nat.eqb (length [x]) (length ys)) eqn:E.
  - apply Nat.eqb_eq in E; simpl in E; congruence.
  - reflexivity.
Qed.

Lemma broadcast2_stretch_r (f : Q -> Q -> Q) (xs : list Q) (y : Q) :
  length xs <> 1%nat ->
  broadcast2 f (Vec xs) (Vec [y]) = Ok (Vec (map (fun x => f x y) xs)).
Proof.
  intros Hx; unfold broadcast2.
  destruct (Nat.eqb (length xs) (length [y])) eqn:E.
  - apply Nat.eqb_eq in E; simpl in E; congruence.
  - destruct xs as [|x [|x' xs]]; simpl in *; try reflexivity; congruence.
Qed.

Lemma polyval_loop_scalar (p : list Q) (x y : Q) :
  polyval_loop p (Scalar x) (Scalar y) = Ok (Scalar (horner p x y)).
Proof.
  revert y; induction p as [|pv p IH]; intros y; simpl;
    [reflexivity | apply IH].
Qed.

Lemma polyval_loop_vec (p : list Q) (g : Q -> Q) (xs : list Q) :
  polyval_loop p (Vec xs) (Vec (map g xs))
  = Ok (Vec (map (fun x => horner p x (g x)) xs)).
Proof.
  revert g; induction p as [|pv p IH]; intros g; cbn [polyval_loop].
  - reflexivity.
  - unfold np_mul; rewrite broadcast2_same_length by apply length_map.
    cbn [bind np_add broadcast2].
    rewrite zip_with_map_l, zip_with_diag, map_map.
    apply (IH (fun x => g x * x + pv)).
Qed.

Lemma polyval_scalar (p : list Q) (x : Q) :
  polyval p (Scalar x) = Ok (Scalar (horner p x 0)).
Proof. apply polyval_loop_scalar. Qed.

Lemma polyval_vec (p : list Q) (xs : list Q) :
  polyval p (Vec xs) = Ok (Vec (map (fun x => horner p x 0) xs)).
Proof. apply (polyval_loop_vec p (fun _ => 0)). Qed.

Lemma broadcast2_scalar_l (f : Q -> Q -> Q) (x : Q) (ys : list Q) :
  broadcast2 f (Scalar x) (Vec ys) = Ok (Vec (map (f x) ys)).
Proof. reflexivity. Qed.

Lemma broadcast2_scalar_r (f : Q -> Q -> Q) (xs : list Q) (y : Q) :
  broadcast2 f (Vec xs) (Scalar y) = Ok (Vec (map (fun x => f x y) xs)).
Proof. reflexivity. Qed.

Lemma broadcast2_scalars (f : Q -> Q -> Q) (x y : Q) :
  broadcast2 f (Scalar x) (Scalar y) = Ok (Scalar (f x y)).
Proof. reflexivity. Qed.

Lemma poly1d_jiang :
  poly1d (Seq [item jiang_coeff 2; item jiang_coeff 1; item jiang_coeff 0])
  = Ok [item jiang_coeff 2; item jiang_coeff 1; item jiang_coeff 0].
Proof. reflexivity. Qed.

(** Opens a calibration body up to its first array operation. *)
Ltac open_jiang :=
  unfold jiang_calibration; rewrite poly1d_jiang; cbn [bind];
  rewrite ?polyval_vec, ?polyval_scalar; cbn [bind];
  unfold np_add, np_mul, np_sub;
  rewrite ?broadcast2_scalar_l, ?broadcast2_scalars; cbn [bind];
  rewrite ?broadcast2_scalar_l, ?broadcast2_scalars; cbn [bind];
  rewrite ?map_map.

(** ** What [jiang_calibration] evaluates to, shape by shape *)

Lemma jiang_calibration_scalar (m y : Q) :
  jiang_calibration (Scalar m) (Scalar y) = Ok (Scalar (jiang_point m y)).
Proof. open_jiang. reflexivity. Qed.

Lemma jiang_calibration_vec (ms ys : list Q) :
  length ms = length ys ->
  jiang_calibration (Vec ms) (Vec ys) = Ok (Vec (zip_with jiang_point ms ys)).
Proof.
  intros H. open_jiang.
  rewrite broadcast2_same_length by (now rewrite length_map).
  cbn [bind].
  rewrite broadcast2_same_length
    by (now rewrite length_map, zip_with_length; rewrite ?length_map).
  rewrite (zip_with_map_l Qmult), zip_with_zip_r. reflexivity.
Qed.

Lemma jiang_calibration_stretch_l (m : Q) (ys : list Q) :
  length ys <> 1%nat ->
  jiang_calibration (Vec [m]) (Vec ys)
  = Ok (Vec (map (jiang_point m) ys)).
Proof.
  intros H. open_jiang. cbn [map].
  rewrite broadcast2_stretch_l by assumption.
  cbn [bind].
  rewrite broadcast2_stretch_l by (now rewrite length_map).
  rewrite map_map. reflexivity.
Qed.

Lemma jiang_calibration_stretch_r (ms : list Q) (y : Q) :
  length ms <> 1%nat ->
  jiang_calibration (Vec ms) (Vec [y])
  = Ok (Vec (map (fun m => jiang_point m y) ms)).
Proof.
  intros H. open_jiang.
  rewrite broadcast2_stretch_r by (now rewrite length_map).
  cbn [bind]. rewrite map_map.
  rewrite broadcast2_same_length by (now rewrite !length_map).
  rewrite zip_with_map_l, zip_with_map_diag. reflexivity.
Qed.

Lemma jiang_calibration_mismatch (ms ys : list Q) :
  length ms <> length ys -> length ms <> 1%nat -> length ys <> 1%nat ->
  jiang_calibration (Vec ms) (Vec ys) = Raise (ValueError broadcast_msg).
Proof.
  intros Hne Hm Hy. open_jiang.
  rewrite broadcast2_mismatch; rewrite ?length_map; auto.
Qed.

Lemma jiang_point_formula (m y : Q) : jiang_point m y == jiang_formula m y.
Proof.
  unfold jiang_point, jiang_formula, item, jiang_coeff; simpl nth. ring.
Qed.

(** ** [bian_calibration_o32] *)

Lemma bian_calibration_o32_scalar (m : Q) :
  bian_calibration_o32 (Scalar m) = Ok (Scalar (bian_o32_point m)).
Proof. reflexivity. Qed.

Lemma bian_calibration_o32_vec (ms : list Q) :
  bian_calibration_o32 (Vec ms) = Ok (Vec (map bian_o32_point ms)).
Proof.
  unfold bian_calibration_o32, np_sub, np_mul.
  rewrite broadcast2_scalar_r; cbn [bind].
  rewrite broadcast2_scalar_l, map_map. reflexivity.
Qed.

Lemma bian_o32_point_formula (m : Q) : bian_o32_point m == bian_o32_formula m.
Proof. unfold bian_o32_point, bian_o32_formula. field. Qed.

(** ** [bian_calibration_r23] *)

(** The coefficient list handed to [np.poly1d] sits inside one more pair of
    brackets, which makes it two-dimensional. *)
Lemma poly1d_bian_ndim : ndim (SeqSeq [rev bian_coeff]) = 2%nat.
Proof. reflexivity. Qed.

(** The same coefficients as a flat list do give the cubic of the
    docstring. *)
Lemma poly1d_flat_bian_is_cubic (m : Q) :
  exists p v,
    poly1d (Seq (rev bian_coeff)) = Ok p /\
    polyval p (Scalar m) = Ok (Scalar v) /\
    v == bian_r23_formula m.
Proof.
  exists (rev bian_coeff), (horner (rev bian_coeff) m 0).
  split; [reflexivity | split; [apply polyval_scalar | ]].
  unfold horner, bian_r23_formula, bian_coeff; simpl. ring.
Qed.

(** C1: [bian_calibration_r23] is documented as the cubic
    [d0 + d1*m + d2*m^2 + d3*m^3]; as written, it hands [np.poly1d] a nested
    list and so raises [ValueError] for every input, scalar or array, before
    any polynomial is evaluated. *)
Theorem bian_calibration_r23_raises (metal_det : ndarray) :
  bian_calibration_r23 metal_det = Raise (ValueError poly1d_msg).
Proof. reflexivity. Qed.

(** ** [jiang_calibration] *)

(** C7, as stated, fails: a one-element metallicity array against a
    two-element [log_o32] array is broadcast and a two-element result comes
    back. *)
Lemma jiang_calibration_broadcasts_unequal :
  length [8.0] <> length [0.5; 0.3] /\
  ~ raises (jiang_calibration (Vec [8.0]) (Vec [0.5; 0.3])) /\
  exists vs, jiang_calibration (Vec [8.0]) (Vec [0.5; 0.3]) = Ok (Vec vs) /\
             length vs = 2%nat.
Proof.
  split; [discriminate | ].
  rewrite jiang_calibration_stretch_l by discriminate.
  split.
  - intros [e He]; discriminate.
  - eexists; split; reflexivity.
Qed.

(** C8: at any scalar or sequence input, [jiang_calibration] (on operands of
    one shape) and [bian_calibration_o32] return a value, and the value is a
    function of the input alone; [bian_calibration_r23] returns nothing: it
    raises, also at a metallicity of 11, outside [6, 10]. *)
Theorem calibrations_defined_except_bian_r23 (m y : Q) (rows : list (Q * Q)) :
  returns (jiang_calibration (Scalar m) (Scalar y)) /\
  returns (jiang_calibration (Vec (map fst rows)) (Vec (map snd rows))) /\
  returns (bian_calibration_o32 (Scalar m)) /\
  returns (bian_calibration_o32 (Vec (map fst rows))) /\
  raises (bian_calibration_r23 (Scalar m)) /\
  raises (bian_calibration_r23 (Vec (map fst rows))) /\
  bian_calibration_r23 (Scalar 11) = Raise (ValueError poly1d_msg).
Proof.
  repeat split.
  - eexists; apply jiang_calibration_scalar.
  - eexists; apply jiang_calibration_vec. now rewrite !length_map.
  - eexists; apply bian_calibration_o32_scalar.
  - eexists; apply bian_calibration_o32_vec.
  - eexists; reflexivity.
  - eexists; reflexivity.
Qed.

(** ** Selection by detection flag *)

Lemma np_where_from_In (mask : list bool) (k i : nat) :
  In i (np_where_from k mask) <->
  (k <= i)%nat /\ nth_error mask (i - k) = Some true.
Proof.
  revert k; induction mask as [|b mask IH]; intros k; cbn [np_where_from].
  - split; [intros [] | intros [_ H]]. destruct (i - k)%nat; discriminate.
  - assert (Hstep : In i (np_where_from (S k) mask) <->
                    (k < i)%nat /\ nth_error (b :: mask) (i - k) = Some true).
    { rewrite IH. split; intros [Hle Hn]; split; try lia.
      - replace (i - k)%nat with (S (i - S k)) by lia. exact Hn.
      - replace (i - k)%nat with (S (i - S k)) in Hn by lia. exact Hn. }
    destruct b; cbn [In]; rewrite Hstep.
    + split.
      * intros [<- | [Hlt Hn]]; [ | split; [lia | exact Hn]].
        split; [lia | ]. now rewrite Nat.sub_diag.
      * intros [Hle Hn]. destruct (Nat.eq_dec k i) as [-> | Hneq];
          [now left | right; split; [lia | exact Hn]].
    + split.
      * intros [Hlt Hn]; split; [lia | exact Hn].
      * intros [Hle Hn]. split; [ | exact Hn].
        destruct (Nat.eq_dec k i) as [-> | Hneq]; [ | lia].
        rewrite Nat.sub_diag in Hn; discriminate.
Qed.

Lemma np_where_In (mask : list bool) (i : nat) :
  In i (np_where mask) <-> nth_error mask i = Some true.
Proof.
  unfold np_where. rewrite np_where_from_In, Nat.sub_0_r.
  split; [now intros [_ H] | intros H; split; [lia | exact H]].
Qed.

Lemma np_where_from_sorted (mask : list bool) (k : nat) :
  StronglySorted lt (np_where_from k mask).
Proof.
  revert k; induction mask as [|b mask IH]; intros k; cbn [np_where_from].
  - constructor.
  - destruct b; [ | apply IH].
    constructor; [apply IH | ].
    apply Forall_forall; intros j Hj.
    apply np_where_from_In in Hj. lia.
Qed.

Lemma np_equal_nth (valid : list Q) (v : Q) (i : nat) :
  nth_error (np_equal valid v) i = Some true <->
  exists x, nth_error valid i = Some x /\ x == v.
Proof.
  unfold np_equal. rewrite nth_error_map.
  destruct (nth_error valid i) as [x|]; cbn [option_map].
  - split.
    + intros H; injection H as H. exists x; split; [reflexivity | ].
      now apply Qeq_bool_iff.
    + intros [x' [Hx' Hv]]; injection Hx' as <-.
      f_equal. now apply Qeq_bool_iff.
  - split; [discriminate | intros [x [Hx _]]; discriminate].
Qed.

Lemma select_detections_In (valid : list Q) (detect rlimit : list nat) :
  select_detections valid = Ok (detect, rlimit) ->
  (forall i, In i detect <-> exists x, nth_error valid i = Some x /\ x == 1.0)
  /\
  (forall i, In i rlimit <-> exists x, nth_error valid i = Some x /\ x == 0.5).
Proof.
  unfold select_detections; intros H; injection H as <- <-.
  split; intros i; rewrite np_where_In; apply np_equal_nth.
Qed.

(** C3, as stated, fails: the flag column [[1.0, 0.3]] is accepted, row 0 is
    a detection and row 1 is in neither set. *)
Lemma select_detections_accepts_unrecognised :
  ~ Forall flag_recognised [1.0; 0.3] /\
  select_detections [1.0; 0.3] = Ok ([0%nat], []) /\
  ~ raises (select_detections [1.0; 0.3]).
Proof.
  split; [ | split].
  - intros H. inversion H as [|? ? _ H']; subst.
    inversion H' as [|? ? Hf _]; subst.
    destruct Hf as [Hf | [Hf | Hf]]; discriminate Hf.
  - reflexivity.
  - intros [e He]; discriminate.
Qed.

(** C3, amended: the selection never fails; a row whose flag is neither 1.0
    nor 0.5, recognised or not, is left out of both index sets. *)
Theorem select_detections_excludes_silently (valid : list Q) (i : nat) (v : Q)
  (Hrow : nth_error valid i = Some v) (Hdet : ~ v == 1.0) (Hrl : ~ v == 0.5) :
  exists detect rlimit,
    select_detections valid = Ok (detect, rlimit) /\
    ~ In i detect /\ ~ In i rlimit.
Proof.
  eexists _, _; split; [reflexivity | ].
  destruct (select_detections_In valid _ _ eq_refl) as [Hd Hr].
  split; intros Hin.
  - apply Hd in Hin as [x [Hx Hv]]. rewrite Hrow in Hx; injection Hx as <-.
    contradiction.
  - apply Hr in Hin as [x [Hx Hv]]. rewrite Hrow in Hx; injection Hx as <-.
    contradiction.
Qed.

Lemma select_detections_excludes_silently_witness :
  exists detect rlimit,
    select_detections [1.0; 0.3] = Ok (detect, rlimit) /\
    ~ In 1%nat detect /\ ~ In 1%nat rlimit.
Proof.
  apply (select_detections_excludes_silently [1.0; 0.3] 1 0.3);
    [reflexivity | discriminate | discriminate].
Defined.

(** C6: on a flag column with values in {0.0, 0.5, 1.0} the selection
    returns the rows flagged 1.0 as [detect] and the rows flagged 0.5 as
    [rlimit]; the two are disjoint, hold only row indices of the table, leave
    out the rows flagged 0.0, and list their indices in increasing row
    order. For [[1.0, 0.5, 0.0, 1.0, 0.5]] they are [[0, 3]] and [[1, 4]]. *)
Theorem select_detections_partition (valid : list Q)
  (Hflags : Forall flag_recognised valid) :
  (exists detect rlimit,
    select_detections valid = Ok (detect, rlimit) /\
    (forall i, In i detect <->
               exists x, nth_error valid i = Some x /\ x == 1.0) /\
    (forall i, In i rlimit <->
               exists x, nth_error valid i = Some x /\ x == 0.5) /\
    (forall i, ~ (In i detect /\ In i rlimit)) /\
    (forall i, In i detect \/ In i rlimit -> (i < length valid)%nat) /\
    (forall i x, nth_error valid i = Some x -> x == 0.0 ->
                 ~ In i detect /\ ~ In i rlimit) /\
    (forall i, (i < length valid)%nat -> ~ In i detect -> ~ In i rlimit ->
               exists x, nth_error valid i = Some x /\ x == 0.0) /\
    StronglySorted lt detect /\ StronglySorted lt rlimit) /\
  select_detections [1.0; 0.5; 0.0; 1.0; 0.5]
  = Ok ([0; 3]%nat, [1; 4]%nat).
Proof.
  split; [ | reflexivity].
  eexists _, _; split; [reflexivity | ].
  destruct (select_detections_In valid _ _ eq_refl) as [Hd Hr].
  split; [exact Hd | split; [exact Hr | ]].
  repeat match goal with |- _ /\ _ => split end.
  - intros i [H1 H2]. apply Hd in H1 as [x [Hx Hx1]].
    apply Hr in H2 as [x' [Hx' Hx2]]. rewrite Hx in Hx'; injection Hx' as <-.
    rewrite Hx1 in Hx2. discriminate Hx2.
  - intros i [H | H]; [apply Hd in H | apply Hr in H];
      destruct H as [x [Hx _]]; apply nth_error_Some; congruence.
  - intros i x Hx H0. split; intros H;
      [apply Hd in H | apply Hr in H]; destruct H as [x' [Hx' Hv]];
      rewrite Hx in Hx'; injection Hx' as <-; rewrite H0 in Hv;
      discriminate Hv.
  - intros i Hi Hnd Hnr.
    destruct (nth_error valid i) as [x|] eqn:Hx;
      [ | apply nth_error_None in Hx; lia].
    exists x; split; [reflexivity | ].
    assert (Hf : flag_recognised x).
    { eapply Forall_forall; [exact Hflags | ]. eapply nth_error_In; eauto. }
    destruct Hf as [Hf | [Hf | Hf]]; [exact Hf | | ].
    + exfalso; apply Hnr, Hr. now exists x.
    + exfalso; apply Hnd, Hd. now exists x.
  - apply np_where_from_sorted.
  - apply np_where_from_sorted.
Qed.

Lemma select_detections_partition_witness :
  Forall flag_recognised [1.0; 0.5; 0.0; 1.0; 0.5] /\
  exists detect rlimit,
    select_detections [1.0; 0.5; 0.0; 1.0; 0.5] = Ok (detect, rlimit) /\
    (forall i, ~ (In i detect /\ In i rlimit)) /\
    StronglySorted lt detect /\ StronglySorted lt rlimit.
Proof.
  assert (H : Forall flag_recognised [1.0; 0.5; 0.0; 1.0; 0.5]).
  { repeat constructor; unfold flag_recognised;
      first [now left | now (right; left) | now (right; right)]. }
  split; [exact H | ].
  destruct (proj1 (select_detections_partition _ H))
    as [d [r [E [_ [_ [Hdis [_ [_ [_ [Hs1 Hs2]]]]]]]]]].
  exists d, r. repeat split; assumption.
Defined.

(** ** [jiang_comparison] *)

Lemma select_map {A B : Type} (f : A -> B) (mask : list bool) (a : list A) :
  select mask (map f a) = map f (select mask a).
Proof.
  revert a; induction mask as [|b mask IH]; intros [|x a]; simpl; auto.
  destruct b; simpl; now rewrite IH.
Qed.

Lemma take_np_where_from {A : Type} (mask : list bool) (pre a : list A) :
  (length mask <= length a)%nat ->
  take (pre ++ a) (np_where_from (length pre) mask) = Ok (select mask a).
Proof.
  revert pre a; induction mask as [|b mask IH]; intros pre a Hlen.
  - reflexivity.
  - destruct a as [|x a]; [simpl in Hlen; lia | ].
    assert (Hrest : take (pre ++ x :: a)
                      (np_where_from (S (length pre)) mask)
                    = Ok (select mask a)).
    { replace (pre ++ x :: a) with ((pre ++ [x]) ++ a)
        by (now rewrite <- app_assoc).
      replace (S (length pre)) with (length (pre ++ [x]))
        by (rewrite length_app; simpl; lia).
      apply IH. simpl in Hlen; lia. }
    cbn [np_where_from select]. destruct b; [ | exact Hrest].
    cbn [take]. rewrite nth_error_app2, Nat.sub_diag by lia.
    cbn [nth_error]. now rewrite Hrest.
Qed.

Lemma take_column {A B : Type} (f : A -> B) (tab : list A)
  (mask : list bool) :
  (length mask <= length tab)%nat ->
  take (map f tab) (np_where mask) = Ok (map f (select mask tab)).
Proof.
  intros Hlen. unfold np_where.
  pose proof (take_np_where_from mask [] (map f tab)) as H.
  cbn [app length] in H. rewrite H by (now rewrite length_map).
  now rewrite select_map.
Qed.

Lemma select_length {A : Type} (mask : list bool) (a : list A) :
  (length mask <= length a)%nat ->
  length (select mask a) = length (np_where mask).
Proof.
  unfold np_where. generalize 0%nat.
  revert a; induction mask as [|b mask IH]; intros a k Hlen;
    [reflexivity | ].
  destruct a as [|x a]; [simpl in Hlen; lia | ].
  cbn [select np_where_from]. simpl in Hlen.
  destruct b; cbn [length]; rewrite (IH a (S k)) by lia; reflexivity.
Qed.

Lemma select_agree {A : Type} (mask : list bool) (a a' : list A) :
  (length mask <= length a)%nat -> (length mask <= length a')%nat ->
  (forall i, nth_error mask i = Some true ->
             nth_error a' i = nth_error a i) ->
  select mask a' = select mask a.
Proof.
  revert a a'; induction mask as [|b mask IH]; intros a a' Ha Ha' Hag;
    [reflexivity | ].
  destruct a as [|x a]; [simpl in Ha; lia | ].
  destruct a' as [|x' a']; [simpl in Ha'; lia | ].
  simpl in Ha, Ha'. cbn [select].
  assert (Htl : select mask a' = select mask a).
  { apply IH; try lia. intros i Hi. apply (Hag (S i)). exact Hi. }
  destruct b; [ | exact Htl].
  specialize (Hag 0%nat eq_refl). cbn in Hag. injection Hag as ->.
  now rewrite Htl.
Qed.

Lemma zip_with_columns {A : Type} (h : Q -> Q -> Q) (f g : A -> Q)
  (l : list A) :
  zip_with h (map f l) (map g l) = map (fun r => h (f r) (g r)) l.
Proof.
  induction l as [|r l IH]; simpl; auto. now rewrite IH.
Qed.

Section ComparisonFacts.

Variable log10 : Q -> Q.

(** What [jiang_comparison] returns when every validated bin has a row of
    derived properties. *)
Lemma jiang_comparison_returns (validation : list validation_row)
  (temp_tab : list derived_row) (derived derived_mact : list catalog_row) :
  (length validation <= length temp_tab)%nat ->
  let valid := map Detection validation in
  let detected := select (np_equal valid 1.0) temp_tab in
  let limited := select (np_equal valid 0.5) temp_tab in
  exists out,
    jiang_comparison log10 validation temp_tab derived derived_mact = Ok out /\
    j_detect out = np_where (np_equal valid 1.0) /\
    j_rlimit out = np_where (np_equal valid 0.5) /\
    j_metal_det out = map metallicity detected /\
    j_rlr23 out = map logR23_Composite limited /\
    j_rlo32 out = map logO32_Composite limited /\
    j_metal_rl out = map metallicity limited /\
    j_count out = (length detected + length derived + length derived_mact)%nat /\
    j_stats out = aggregate (Vec (map composite_residual detected))
                    (Vec (map (catalog_residual log10) derived))
                    (Vec (map (catalog_residual log10) derived_mact)).
Proof.
  intros Hlen valid detected limited.
  assert (H1 : (length (np_equal valid 1.0) <= length temp_tab)%nat)
    by (unfold np_equal, valid; now rewrite !length_map).
  assert (H5 : (length (np_equal valid 0.5) <= length temp_tab)%nat)
    by (unfold np_equal, valid; now rewrite !length_map).
  unfold jiang_comparison, select_detections. cbn [bind fst snd].
  fold valid.
  rewrite !(take_column _ _ _ H1), !(take_column _ _ _ H5). cbn [bind].
  fold detected limited.
  rewrite !map_map.
  rewrite !jiang_calibration_vec by (now rewrite !length_map).
  cbn [bind]. unfold np_sub.
  rewrite !broadcast2_same_length
    by (now rewrite zip_with_length; rewrite !length_map).
  cbn [bind].
  eexists; split; [reflexivity | ].
  cbn [j_detect j_rlimit j_metal_det j_rlr23 j_rlo32 j_metal_rl j_count
       j_stats].
  repeat match goal with |- _ /\ _ => split end; try reflexivity.
  - now rewrite !length_map.
  - rewrite !zip_with_columns. reflexivity.
Qed.

(** C10: the pooled residual array of [jiang_comparison] holds one residual
    for each composite row flagged 1.0 and one for each row of the DEEP2 and
    MACT catalogues, so its length is
    [len(detect) + len(DEEP2) + len(MACT)]; the rows flagged 0.5 are
    extracted into [rlr23], [rlo32] and [metal_rl] and the statistics do not
    depend on them. *)
Theorem jiang_comparison_pooled_rows (validation : list validation_row)
  (temp_tab : list derived_row) (derived derived_mact : list catalog_row)
  (Hrows : (length validation <= length temp_tab)%nat) :
  exists out,
    jiang_comparison log10 validation temp_tab derived derived_mact = Ok out /\
    let valid := map Detection validation in
    let detected := select (np_equal valid 1.0) temp_tab in
    let limited := select (np_equal valid 0.5) temp_tab in
    j_detect out = np_where (np_equal valid 1.0) /\
    length (arr_sum (j_stats out))
    = (length (j_detect out) + length derived + length derived_mact)%nat /\
    j_count out = length (arr_sum (j_stats out)) /\
    arr_sum (j_stats out)
    = map composite_residual detected
      ++ map (catalog_residual log10) derived
      ++ map (catalog_residual log10) derived_mact /\
    j_rlr23 out = map logR23_Composite limited /\
    j_rlo32 out = map logO32_Composite limited /\
    j_metal_rl out = map metallicity limited /\
    (forall temp_tab' : list derived_row,
       (length validation <= length temp_tab')%nat ->
       (forall i v, nth_error validation i = Some v ->
                    ~ Detection v == 0.5 ->
                    nth_error temp_tab' i = nth_error temp_tab i) ->
       exists out',
         jiang_comparison log10 validation temp_tab' derived derived_mact
         = Ok out' /\
         j_stats out' = j_stats out).
Proof.
  destruct (jiang_comparison_returns validation temp_tab derived derived_mact
              Hrows)
    as [out [Hout [Hdet [_ [_ [Hr1 [Hr2 [Hr3 [Hcount Hstats]]]]]]]]].
  exists out; split; [exact Hout | ]. cbn zeta.
  assert (Hsel : length (select (np_equal (map Detection validation) 1.0)
                           temp_tab)
                 = length (j_detect out)).
  { rewrite Hdet. apply select_length.
    unfold np_equal; now rewrite !length_map. }
  rewrite Hstats, Hcount.
  unfold aggregate, np_concatenate3; cbn [arr_sum flatten].
  repeat match goal with |- _ /\ _ => split end; try assumption;
    try reflexivity.
  - rewrite !length_app, !length_map. lia.
  - rewrite !length_app, !length_map. lia.
  - intros temp_tab' Hrows' Hagree.
    destruct (jiang_comparison_returns validation temp_tab' derived
                derived_mact Hrows')
      as [out' [Hout' [_ [_ [_ [_ [_ [_ [_ Hstats']]]]]]]]].
    exists out'; split; [exact Hout' | ].
    rewrite Hstats'.
    rewrite (select_agree _ temp_tab temp_tab'); [reflexivity | | | ];
      try (unfold np_equal; now rewrite !length_map).
    intros i Hi. apply np_equal_nth in Hi as [x [Hx Hx1]].
    rewrite nth_error_map in Hx.
    destruct (nth_error validation i) as [v|] eqn:Hv; [ | discriminate].
    cbn in Hx; injection Hx as <-.
    apply (Hagree i v Hv). intros H05. rewrite Hx1 in H05. discriminate H05.
Qed.

End ComparisonFacts.

Lemma jiang_comparison_pooled_rows_witness :
  let validation := [ {| Detection := 1.0 |}; {| Detection := 0.5 |};
                      {| Detection := 0.0 |} ] in
  let temp_tab :=
    [ {| bin_ID := 0; logR23_Composite := 0.8; logO32_Composite := 0.5;
         metallicity := 8.0 |};
      {| bin_ID := 1; logR23_Composite := 0.9; logO32_Composite := 0.3;
         metallicity := 8.5 |};
      {| bin_ID := 2; logR23_Composite := 0.7; logO32_Composite := 0.1;
         metallicity := 8.2 |} ] in
  let deep := [ {| R23 := 6; O32 := 2; OH := 8.1 |} ] in
  let mact := [ {| R23 := 7; O32 := 3; OH := 8.3 |};
                {| R23 := 5; O32 := 1; OH := 8.4 |} ] in
  (length validation <= length temp_tab)%nat /\
  exists out,
    jiang_comparison (fun x => x) validation temp_tab deep mact = Ok out /\
    length (arr_sum (j_stats out)) = 4%nat /\
    j_rlr23 out = [0.9].
Proof.
  cbn zeta. split; [simpl; lia | ].
  destruct (jiang_comparison_pooled_rows (fun x => x)
              [ {| Detection := 1.0 |}; {| Detection := 0.5 |};
                {| Detection := 0.0 |} ]
              [ {| bin_ID := 0; logR23_Composite := 0.8;
                   logO32_Composite := 0.5; metallicity := 8.0 |};
                {| bin_ID := 1; logR23_Composite := 0.9;
                   logO32_Composite := 0.3; metallicity := 8.5 |};
                {| bin_ID := 2; logR23_Composite := 0.7;
                   logO32_Composite := 0.1; metallicity := 8.2 |} ]
              [ {| R23 := 6; O32 := 2; OH := 8.1 |} ]
              [ {| R23 := 7; O32 := 3; OH := 8.3 |};
                {| R23 := 5; O32 := 1; OH := 8.4 |} ]
              ltac:(simpl; lia))
    as [out [Hout [Hdet [Hlen [_ [_ [Hrl _]]]]]]].
  exists out. split; [exact Hout | split].
  - rewrite Hlen, Hdet. reflexivity.
  - exact Hrl.
Defined.

(** * Further properties of the calibrations *)

Lemma jiang_calibration_scalar_vec (m : Q) (ys : list Q) :
  jiang_calibration (Scalar m) (Vec ys) = Ok (Vec (map (jiang_point m) ys)).
Proof.
  unfold jiang_calibration. rewrite poly1d_jiang. cbn [bind].
  rewrite polyval_scalar. cbn [bind]. unfold np_add, np_mul.
  repeat (first [rewrite broadcast2_scalars | rewrite broadcast2_scalar_l];
          cbn [bind]).
  rewrite map_map. reflexivity.
Qed.

Lemma jiang_calibration_vec_scalar (ms : list Q) (y : Q) :
  jiang_calibration (Vec ms) (Scalar y)
  = Ok (Vec (map (fun m => jiang_point m y) ms)).
Proof.
  unfold jiang_calibration. rewrite poly1d_jiang. cbn [bind].
  rewrite polyval_vec. cbn [bind]. unfold np_add, np_mul.
  repeat (first [rewrite broadcast2_scalar_l | rewrite broadcast2_scalar_r];
          cbn [bind]).
  rewrite !map_map.
  rewrite broadcast2_same_length by (now rewrite !length_map).
  rewrite zip_with_map_l, zip_with_map_diag. reflexivity.
Qed.

(** X1: [jiang_calibration] returns a value exactly when its two operands
    can be broadcast together: one of them is a scalar, or both are arrays
    of one length, or one of the arrays has length one. In every other case
    it raises NumPy's broadcasting [ValueError]. *)
Theorem jiang_calibration_returns_iff (a b : ndarray) :
  (returns (jiang_calibration a b) <-> broadcastable a b) /\
  (~ broadcastable a b ->
   jiang_calibration a b = Raise (ValueError broadcast_msg)).
Proof.
  destruct a as [m | ms], b as [y | ys]; cbn [broadcastable].
  - split; [split; [trivial | ] | tauto].
    intros _. eexists; apply jiang_calibration_scalar.
  - split; [split; [trivial | ] | tauto].
    intros _. eexists; apply jiang_calibration_scalar_vec.
  - split; [split; [trivial | ] | tauto].
    intros _. eexists; apply jiang_calibration_vec_scalar.
  - assert (Hbad : ~ (length ms = length ys \/ length ms = 1%nat \/
                      length ys = 1%nat) ->
                   jiang_calibration (Vec ms) (Vec ys)
                   = Raise (ValueError broadcast_msg)).
    { intros H. apply jiang_calibration_mismatch; intros E; apply H; tauto. }
    split; [split | exact Hbad].
    + intros [r Hr].
      destruct (Nat.eq_dec (length ms) (length ys)) as [E | NE];
        [now left | ].
      destruct (Nat.eq_dec (length ms) 1) as [E1 | NE1];
        [now (right; left) | ].
      destruct (Nat.eq_dec (length ys) 1) as [E2 | NE2];
        [now (right; right) | ].
      rewrite jiang_calibration_mismatch in Hr by assumption. discriminate.
    + intros H.
      destruct (Nat.eq_dec (length ms) (length ys)) as [E | NE].
      { eexists; now apply jiang_calibration_vec. }
      destruct H as [E | [E1 | E2]]; [contradiction | | ].
      * destruct ms as [|m [|? ?]]; try discriminate.
        eexists; apply jiang_calibration_stretch_l.
        simpl in NE; congruence.
      * destruct ys as [|y [|? ?]]; try discriminate.
        eexists; apply jiang_calibration_stretch_r.
        simpl in NE; congruence.
Qed.

Lemma jiang_calibration_returns_iff_witness :
  ~ broadcastable (Vec [8.0; 8.5; 9.0]) (Vec [0.5; 0.3]) /\
  jiang_calibration (Vec [8.0; 8.5; 9.0]) (Vec [0.5; 0.3])
  = Raise (ValueError broadcast_msg).
Proof.
  assert (H : ~ broadcastable (Vec [8.0; 8.5; 9.0]) (Vec [0.5; 0.3])).
  { cbn. intros [H | [H | H]]; discriminate H. }
  split; [exact H | ].
  apply (proj2 (jiang_calibration_returns_iff _ _) H).
Defined.

(** * Further properties of the comparisons *)

(** ** Integer-array indexing *)

Lemma take_ok {A : Type} (a : list A) (idx : list nat) :
  Forall (fun i => (i < length a)%nat) idx ->
  exists l, take a idx = Ok l /\ length l = length idx.
Proof.
  induction 1 as [|i idx Hi _ IH]; cbn [take].
  - now exists [].
  - destruct (nth_error a i) as [x|] eqn:Hx;
      [ | apply nth_error_None in Hx; lia].
    destruct IH as [l [Hl Hlen]]. rewrite Hl. cbn [bind].
    exists (x :: l). split; [reflexivity | simpl; now rewrite Hlen].
Qed.

Lemma take_raise {A : Type} (a : list A) (idx : list nat) :
  ~ Forall (fun i => (i < length a)%nat) idx ->
  take a idx = Raise (IndexError index_msg).
Proof.
  induction idx as [|i idx IH]; intros Hn; cbn [take].
  - exfalso; apply Hn; constructor.
  - destruct (nth_error a i) as [x|] eqn:Hx; [ | reflexivity].
    rewrite IH; [reflexivity | ].
    intros HF. apply Hn. constructor; [ | exact HF].
    apply nth_error_Some. congruence.
Qed.

Lemma take_nth {A : Type} (a : list A) (idx : list nat) (l : list A) :
  take a idx = Ok l ->
  length l = length idx /\
  forall k i, nth_error idx k = Some i -> nth_error l k = nth_error a i.
Proof.
  revert l; induction idx as [|i idx IH]; intros l; cbn [take].
  - intros H; injection H as <-. split; [reflexivity | ].
    intros [|k] j Hk; discriminate Hk.
  - destruct (nth_error a i) as [x|] eqn:Hx; [ | discriminate].
    destruct (take a idx) as [l'|e]; cbn [bind]; [ | discriminate].
    intros H; injection H as <-.
    destruct (IH l' eq_refl) as [Hlen Hnth].
    split; [simpl; now rewrite Hlen | ].
    intros [|k] j Hk; cbn [nth_error] in *.
    + injection Hk as <-. now rewrite Hx.
    + now apply Hnth.
Qed.

Lemma in_range_dec (n : nat) (idx : list nat) :
  {Forall (fun i => (i < n)%nat) idx} + {~ Forall (fun i => (i < n)%nat) idx}.
Proof. apply Forall_dec; intros i; apply lt_dec. Qed.

Lemma flag_beyond_iff (v : Q) (validation : list validation_row)
  (temp_tab : list derived_row) :
  flag_beyond v validation temp_tab <->
  ~ Forall (fun i => (i < length temp_tab)%nat)
      (np_where (np_equal (map Detection validation) v)).
Proof.
  split.
  - intros [i [r [Hr [Hv Hi]]]] HF.
    assert (Hin : In i (np_where (np_equal (map Detection validation) v))).
    { apply np_where_In, np_equal_nth. exists (Detection r). split;
        [ | exact Hv]. rewrite nth_error_map, Hr. reflexivity. }
    eapply Forall_forall in HF; [ | exact Hin]. lia.
  - intros HnF.
    apply neg_Forall_Exists_neg in HnF; [ | intros i; apply lt_dec].
    apply Exists_exists in HnF as [i [Hin Hi]].
    apply np_where_In, np_equal_nth in Hin as [x [Hx Hv]].
    rewrite nth_error_map in Hx.
    destruct (nth_error validation i) as [r|] eqn:Hr; [ | discriminate].
    cbn in Hx; injection Hx as <-.
    exists i, r. split; [exact Hr | split; [exact Hv | lia]].
Qed.

(** The helper form of the failure of [bian_calibration_r23]. *)
Lemma bian_calibration_r23_fails (metal_det : ndarray) :
  bian_calibration_r23 metal_det = Raise (ValueError poly1d_msg).
Proof. reflexivity. Qed.

Section ComparisonRuns.

Variable log10 : Q -> Q.

(** ** When [jiang_comparison] runs through *)

(** X7: [jiang_comparison] raises [IndexError] when some row of the
    validation table flagged 1.0 or 0.5 lies beyond the last row of the
    derived-properties table, and returns otherwise. A row flagged 0.5 is
    enough to make it fail, although such rows do not enter the
    statistics. *)
Theorem jiang_comparison_index_error (validation : list validation_row)
  (temp_tab : list derived_row) (derived derived_mact : list catalog_row) :
  let beyond := flag_beyond 1.0 validation temp_tab \/
                flag_beyond 0.5 validation temp_tab in
  (beyond ->
   jiang_comparison log10 validation temp_tab derived derived_mact
   = Raise (IndexError index_msg)) /\
  (~ beyond ->
   returns (jiang_comparison log10 validation temp_tab derived derived_mact)).
Proof.
  cbn zeta. rewrite !flag_beyond_iff.
  set (detect := np_where (np_equal (map Detection validation) 1.0)).
  set (rlimit := np_where (np_equal (map Detection validation) 0.5)).
  unfold jiang_comparison, select_detections. cbn [bind fst snd].
  fold detect rlimit.
  destruct (in_range_dec (length temp_tab) detect) as [Hd | Hd].
  2:{ split; [intros _ | tauto].
      rewrite take_raise by (now rewrite length_map). reflexivity. }
  destruct (take_ok (map bin_ID temp_tab) detect) as [ids [-> Hids]];
    [now rewrite length_map | ].
  destruct (take_ok (map logR23_Composite temp_tab) detect)
    as [lR23 [-> HlR23]]; [now rewrite length_map | ].
  destruct (take_ok (map logO32_Composite temp_tab) detect)
    as [lO32 [-> HlO32]]; [now rewrite length_map | ].
  destruct (take_ok (map metallicity temp_tab) detect)
    as [metal [Hmetal Hlmetal]]; [now rewrite length_map | ].
  cbn [bind].
  destruct (in_range_dec (length temp_tab) rlimit) as [Hr | Hr].
  2:{ split; [intros _ | tauto].
      rewrite take_raise by (now rewrite length_map). reflexivity. }
  split; [tauto | intros _].
  destruct (take_ok (map logR23_Composite temp_tab) rlimit)
    as [rlr23 [-> _]]; [now rewrite length_map | ].
  destruct (take_ok (map logO32_Composite temp_tab) rlimit)
    as [rlo32 [-> _]]; [now rewrite length_map | ].
  destruct (take_ok (map metallicity temp_tab) rlimit)
    as [metal_rl [Hmrl _]]; [now rewrite length_map | ].
  cbn [bind]. rewrite Hmetal. cbn [bind]. rewrite Hmrl. cbn [bind].
  rewrite !jiang_calibration_vec
    by (rewrite ?length_map; congruence).
  cbn [bind]. unfold np_sub.
  rewrite !broadcast2_same_length
    by (rewrite zip_with_length; rewrite ?length_map; congruence).
  cbn [bind]. eexists; reflexivity.
Qed.

(** ** [bian_comparison] *)

(** X8: [bian_comparison] never returns: it raises [IndexError] when a row
    flagged 1.0 lies beyond the derived-properties table, and otherwise the
    [ValueError] of [bian_calibration_r23] at its first call; rows flagged
    0.5 play no part. *)
Theorem bian_comparison_never_returns (validation : list validation_row)
  (temp_tab : list derived_row) (derived derived_MACT : list catalog_row) :
  ~ returns (bian_comparison log10 validation temp_tab derived derived_MACT)
  /\
  (flag_beyond 1.0 validation temp_tab ->
   bian_comparison log10 validation temp_tab derived derived_MACT
   = Raise (IndexError index_msg)) /\
  (~ flag_beyond 1.0 validation temp_tab ->
   bian_comparison log10 validation temp_tab derived derived_MACT
   = Raise (ValueError poly1d_msg)).
Proof.
  rewrite flag_beyond_iff.
  set (detect := np_where (np_equal (map Detection validation) 1.0)).
  unfold bian_comparison, select_detections. cbn [bind fst snd].
  fold detect.
  destruct (in_range_dec (length temp_tab) detect) as [Hd | Hd].
  - destruct (take_ok (map bin_ID temp_tab) detect) as [ids [-> _]];
      [now rewrite length_map | ].
    destruct (take_ok (map logR23_Composite temp_tab) detect)
      as [lR23 [-> _]]; [now rewrite length_map | ].
    destruct (take_ok (map logO32_Composite temp_tab) detect)
      as [lO32 [-> _]]; [now rewrite length_map | ].
    destruct (take_ok (map metallicity temp_tab) detect)
      as [metal [-> _]]; [now rewrite length_map | ].
    cbn [bind]. rewrite bian_calibration_r23_fails. cbn [bind].
    split; [intros [r Hr]; discriminate | split; [tauto | reflexivity]].
  - rewrite take_raise by (now rewrite length_map). cbn [bind].
    split; [intros [r Hr]; discriminate | split; [reflexivity | tauto]].
Qed.

End ComparisonRuns.

Lemma bian_comparison_never_returns_witness :
  let validation := [ {| Detection := 1.0 |}; {| Detection := 0.5 |} ] in
  let temp_tab :=
    [ {| bin_ID := 0; logR23_Composite := 0.8; logO32_Composite := 0.5;
         metallicity := 8.0 |} ] in
  let deep := [ {| R23 := 6; O32 := 2; OH := 8.1 |} ] in
  ~ flag_beyond 1.0 validation temp_tab /\
  bian_comparison (fun x => x) validation temp_tab deep []
  = Raise (ValueError poly1d_msg).
Proof.
  cbn zeta.
  assert (H : ~ flag_beyond 1.0
                  [ {| Detection := 1.0 |}; {| Detection := 0.5 |} ]
                  [ {| bin_ID := 0; logR23_Composite := 0.8;
                       logO32_Composite := 0.5; metallicity := 8.0 |} ]).
  { intros [i [r [Hr [Hv Hi]]]].
    destruct i as [|[|[|i]]]; cbn in Hr, Hi; try lia; try discriminate Hr.
    injection Hr as <-. discriminate Hv. }
  split; [exact H | ].
  apply (bian_comparison_never_returns (fun x => x)). exact H.
Defined.

Lemma jiang_comparison_index_error_witness :
  let validation := [ {| Detection := 1.0 |}; {| Detection := 0.5 |} ] in
  let temp_tab :=
    [ {| bin_ID := 0; logR23_Composite := 0.8; logO32_Composite := 0.5;
         metallicity := 8.0 |} ] in
  flag_beyond 0.5 validation temp_tab /\
  jiang_comparison (fun x => x) validation temp_tab [] []
  = Raise (IndexError index_msg).
Proof.
  cbn zeta.
  assert (H : flag_beyond 0.5
                [ {| Detection := 1.0 |}; {| Detection := 0.5 |} ]
                [ {| bin_ID := 0; logR23_Composite := 0.8;
                     logO32_Composite := 0.5; metallicity := 8.0 |} ]).
  { exists 1%nat, {| Detection := 0.5 |}.
    split; [reflexivity | split; [reflexivity | simpl; lia]]. }
  split; [exact H | ].
  apply (jiang_comparison_index_error (fun x => x)). right. exact H.
Defined.

Lemma nth_error_zip_with (f : Q -> Q -> Q) (xs ys : list Q) (k : nat)
  (x y : Q) :
  nth_error xs k = Some x -> nth_error ys k = Some y ->
  nth_error (zip_with f xs ys) k = Some (f x y).
Proof.
  revert ys k; induction xs as [|x0 xs IH]; intros [|y0 ys] [|k] Hx Hy;
    cbn in *; try discriminate.
  - now injection Hx as ->; injection Hy as ->.
  - now apply IH.
Qed.

Lemma np_equal_no_flag (v : Q) (validation : list validation_row) :
  Forall (fun r => ~ Detection r == v) validation ->
  np_equal (map Detection validation) v = map (fun _ => false) validation.
Proof.
  unfold np_equal. rewrite map_map.
  induction 1 as [|r rs Hr _ IH]; cbn [map]; [reflexivity | ].
  rewrite IH. f_equal.
  destruct (Qeq_bool (Detection r) v) eqn:E; [ | reflexivity].
  apply Qeq_bool_iff in E. contradiction.
Qed.

Section ComparisonAlignment.

Variable log10 : Q -> Q.

(** The pieces a successful run of [jiang_comparison] was built from. *)
Lemma jiang_comparison_inv (validation : list validation_row)
  (temp_tab : list derived_row) (derived derived_mact : list catalog_row)
  (out : jiang_result) :
  jiang_comparison log10 validation temp_tab derived derived_mact = Ok out ->
  j_detect out = np_where (np_equal (map Detection validation) 1.0) /\
  take (map bin_ID temp_tab) (j_detect out) = Ok (j_valid_id out) /\
  take (map logR23_Composite temp_tab) (j_detect out) = Ok (j_lR23 out) /\
  take (map logO32_Composite temp_tab) (j_detect out) = Ok (j_lO32 out) /\
  take (map metallicity temp_tab) (j_detect out) = Ok (j_metal_det out) /\
  jiang_calibration (Vec (j_metal_det out)) (Vec (j_lO32 out))
  = Ok (j_jR23_det out).
Proof.
  unfold jiang_comparison, select_detections. cbn [bind fst snd].
  repeat match goal with
         | |- context [bind (take ?a ?i) _] =>
             destruct (take a i) eqn:?; cbn [bind]; [ | discriminate]
         end.
  repeat match goal with
         | |- context [bind (jiang_calibration ?a ?b) _] =>
             destruct (jiang_calibration a b) eqn:?; cbn [bind];
             [ | discriminate]
         | |- context [bind (np_sub ?a ?b) _] =>
             destruct (np_sub a b) eqn:?; cbn [bind]; [ | discriminate]
         end.
  intros H; injection H as <-. cbn.
  repeat split; assumption.
Qed.

(** ** Nothing to compare *)

(** X10: with no row flagged 1.0 and two empty catalogues,
    [jiang_comparison] still returns: nothing is pooled, [count] is 0 and
    the median, mean and standard deviation are all [nan]. *)
Theorem jiang_comparison_empty (validation : list validation_row)
  (temp_tab : list derived_row)
  (Hrows : (length validation <= length temp_tab)%nat)
  (Hnone : Forall (fun r => ~ Detection r == 1.0) validation) :
  exists out,
    jiang_comparison log10 validation temp_tab [] [] = Ok out /\
    j_detect out = [] /\ j_count out = 0%nat /\
    arr_sum (j_stats out) = [] /\
    med0 (j_stats out) = None /\ avg0 (j_stats out) = None /\
    sig0 (j_stats out) = None.
Proof.
  destruct (jiang_comparison_returns log10 validation temp_tab [] [] Hrows)
    as [out [Hout [Hdet [_ [_ [_ [_ [_ [Hcount Hstats]]]]]]]]].
  pose proof (np_equal_no_flag 1.0 validation Hnone) as Hmask.
  assert (Hsel : forall (tab : list derived_row) (rs : list validation_row),
             select (map (fun _ => false) rs) tab = []).
  { intros tab rs; revert tab; induction rs as [|r rs IH]; intros [|x tab];
      cbn; auto. }
  assert (Hwhere : forall (rs : list validation_row) k,
             np_where_from k (map (fun _ => false) rs) = []).
  { induction rs as [|r rs IH]; intros k; cbn; auto. }
  rewrite Hmask, Hsel in Hcount, Hstats. rewrite Hmask in Hdet.
  unfold np_where in Hdet. rewrite Hwhere in Hdet.
  exists out. rewrite Hstats, Hcount, Hdet.
  repeat split; try reflexivity; exact Hout.
Qed.

End ComparisonAlignment.

Lemma jiang_comparison_empty_witness :
  exists out,
    jiang_comparison (fun x => x)
      [ {| Detection := 0.5 |}; {| Detection := 0.0 |} ]
      [ {| bin_ID := 0; logR23_Composite := 0.8; logO32_Composite := 0.5;
           metallicity := 8.0 |};
        {| bin_ID := 1; logR23_Composite := 0.9; logO32_Composite := 0.3;
           metallicity := 8.5 |} ] [] [] = Ok out /\
    med0 (j_stats out) = None /\ avg0 (j_stats out) = None /\
    sig0 (j_stats out) = None.
Proof.
  destruct (jiang_comparison_empty (fun x => x)
              [ {| Detection := 0.5 |}; {| Detection := 0.0 |} ]
              [ {| bin_ID := 0; logR23_Composite := 0.8;
                   logO32_Composite := 0.5; metallicity := 8.0 |};
                {| bin_ID := 1; logR23_Composite := 0.9;
                   logO32_Composite := 0.3; metallicity := 8.5 |} ]
              ltac:(simpl; lia)
              ltac:(repeat constructor; cbn; discriminate))
    as [out [Hout [_ [_ [_ H]]]]].
  exists out. split; [exact Hout | exact H].
Defined.


(** * The calibrations in binary64 and in exact arithmetic *)

Section ArithmeticFacts.

Variable num : Type.
Variables add sub mul div : num -> num -> num.
Variable zero : num.
Variable is_zero : num -> bool.
Variable coeff : list num.
Variables minus_one c_0_59 c_8_54 : num.

(** The leading coefficient handed to [np.poly1d] is not zero, so nothing is
    trimmed. *)
Hypothesis Hlead : is_zero (g_item num zero coeff 2) = false.

Lemma g_zip_with_length (f : num -> num -> num) (xs ys : list num) :
  length xs = length ys -> length (g_zip_with f xs ys) = length xs.
Proof.
  revert ys; induction xs as [|x xs IH]; intros [|y ys] H; simpl in *;
    try discriminate; auto.
Qed.

Lemma g_zip_with_map_l (f : num -> num -> num) (g : num -> num)
  (xs ys : list num) :
  g_zip_with f (map g xs) ys = g_zip_with (fun x y => f (g x) y) xs ys.
Proof.
  revert ys; induction xs as [|x xs IH]; intros [|y ys]; simpl; auto.
  now rewrite IH.
Qed.

Lemma g_zip_with_diag (f : num -> num -> num) (xs : list num) :
  g_zip_with f xs xs = map (fun x => f x x) xs.
Proof.
  induction xs as [|x xs IH]; simpl; auto. now rewrite IH.
Qed.

Lemma g_zip_with_zip_r (f g : num -> num -> num) (k : num -> num)
  (xs ys : list num) :
  g_zip_with f (map k xs) (g_zip_with g xs ys)
  = g_zip_with (fun x y => f (k x) (g x y)) xs ys.
Proof.
  revert ys; induction xs as [|x xs IH]; intros [|y ys]; simpl; auto.
  now rewrite IH.
Qed.

Lemma g_broadcast2_same_length (f : num -> num -> num) (xs ys : list num) :
  length xs = length ys ->
  g_broadcast2 f (AVec xs) (AVec ys) = Ok (AVec (g_zip_with f xs ys)).
Proof.
  intros H; unfold g_broadcast2. now rewrite H, Nat.eqb_refl.
Qed.

Lemma g_broadcast2_scalar_l (f : num -> num -> num) (x : num)
  (ys : list num) :
  g_broadcast2 f (AScalar x) (AVec ys) = Ok (AVec (map (f x) ys)).
Proof. reflexivity. Qed.

Lemma g_broadcast2_scalar_r (f : num -> num -> num) (xs : list num)
  (y : num) :
  g_broadcast2 f (AVec xs) (AScalar y) = Ok (AVec (map (fun x => f x y) xs)).
Proof. reflexivity. Qed.

Lemma g_broadcast2_scalars (f : num -> num -> num) (x y : num) :
  g_broadcast2 f (AScalar x) (AScalar y) = Ok (AScalar (f x y)).
Proof. reflexivity. Qed.

Lemma g_polyval_loop_scalar (p : list num) (x y : num) :
  g_polyval_loop num add mul p (AScalar x) (AScalar y)
  = Ok (AScalar (g_horner num add mul p x y)).
Proof.
  revert y; induction p as [|pv p IH]; intros y; simpl;
    [reflexivity | apply IH].
Qed.

Lemma g_polyval_loop_vec (p : list num) (g : num -> num) (xs : list num) :
  g_polyval_loop num add mul p (AVec xs) (AVec (map g xs))
  = Ok (AVec (map (fun x => g_horner num add mul p x (g x)) xs)).
Proof.
  revert g; induction p as [|pv p IH]; intros g; cbn [g_polyval_loop].
  - reflexivity.
  - rewrite g_broadcast2_same_length by apply length_map.
    cbn [bind]. rewrite g_broadcast2_scalar_r. cbn [bind].
    rewrite g_zip_with_map_l, g_zip_with_diag, map_map.
    apply (IH (fun x => add (mul (g x) x) pv)).
Qed.

Lemma g_poly1d_jiang :
  g_poly1d num zero is_zero
    [g_item num zero coeff 2; g_item num zero coeff 1;
     g_item num zero coeff 0]
  = [g_item num zero coeff 2; g_item num zero coeff 1;
     g_item num zero coeff 0].
Proof. unfold g_poly1d; cbn [g_trim_zeros_f]. now rewrite Hlead. Qed.

Lemma g_jiang_calibration_scalar (m y : num) :
  g_jiang_calibration num add mul zero is_zero coeff (AScalar m) (AScalar y)
  = Ok (AScalar (g_jiang_point num add mul zero coeff m y)).
Proof.
  unfold g_jiang_calibration. cbn zeta. rewrite g_poly1d_jiang.
  unfold g_polyval. cbn [g_zeros_like]. rewrite g_polyval_loop_scalar.
  reflexivity.
Qed.

Lemma g_jiang_calibration_vec (ms ys : list num) :
  length ms = length ys ->
  g_jiang_calibration num add mul zero is_zero coeff (AVec ms) (AVec ys)
  = Ok (AVec (g_zip_with (g_jiang_point num add mul zero coeff) ms ys)).
Proof.
  intros H. unfold g_jiang_calibration. cbn zeta. rewrite g_poly1d_jiang.
  unfold g_polyval. cbn [g_zeros_like].
  rewrite (g_polyval_loop_vec _ (fun _ => zero)). cbn [bind].
  rewrite !g_broadcast2_scalar_l. cbn [bind].
  rewrite g_broadcast2_scalar_l. cbn [bind]. rewrite map_map.
  rewrite g_broadcast2_same_length by (now rewrite length_map).
  cbn [bind].
  rewrite g_broadcast2_same_length
    by (now rewrite length_map, g_zip_with_length; rewrite ?length_map).
  rewrite (g_zip_with_map_l mul), g_zip_with_zip_r. reflexivity.
Qed.

Lemma g_bian_calibration_o32_scalar (m : num) :
  g_bian_calibration_o32 num sub mul div minus_one c_0_59 c_8_54 (AScalar m)
  = Ok (AScalar (g_bian_o32_point num sub mul div minus_one c_0_59 c_8_54 m)).
Proof. reflexivity. Qed.

Lemma g_bian_calibration_o32_vec (ms : list num) :
  g_bian_calibration_o32 num sub mul div minus_one c_0_59 c_8_54 (AVec ms)
  = Ok (AVec (map (g_bian_o32_point num sub mul div minus_one c_0_59 c_8_54)
                ms)).
Proof.
  unfold g_bian_calibration_o32.
  rewrite g_broadcast2_scalar_r; cbn [bind].
  rewrite g_broadcast2_scalar_l, map_map. reflexivity.
Qed.

End ArithmeticFacts.

Lemma exact_jiang_point_formula (m y : Q) :
  Exact.jiang_point m y == jiang_formula m y.
Proof. apply jiang_point_formula. Qed.

Lemma exact_bian_o32_point_formula (m : Q) :
  Exact.bian_o32_point m == - (m - 8.54) / 0.59.
Proof. apply (bian_o32_point_formula m). Qed.

(** C2, as stated, fails on the code: at metallicity 8.1 and [log O32] 0.5
    the value returned in binary64 is neither the docstring's expression
    evaluated in binary64 nor the exact value of the formula, and at the
    finite metallicity 1e200 the result is minus infinity. *)
Lemma jiang_calibration_formula_fails_binary64 :
  exists v,
    B64.jiang_calibration (AScalar 8.1%float) (AScalar 0.5%float)
    = Ok (AScalar v) /\
    PrimFloat.eqb v (B64.jiang_formula 8.1 0.5) = false /\
    (exists qv qm qy,
       F2Q v = Some qv /\ F2Q 8.1%float = Some qm /\
       F2Q 0.5%float = Some qy /\ ~ qv == jiang_formula qm qy) /\
    B64.jiang_calibration (AScalar 1e200%float) (AScalar 0.5%float)
    = Ok (AScalar neg_infinity) /\
    F2Q neg_infinity = None.
Proof.
  eexists. split; [vm_compute; reflexivity | ].
  split; [vm_compute; reflexivity | ].
  split.
  - eexists _, _, _.
    split; [vm_compute; reflexivity | ].
    split; [vm_compute; reflexivity | ].
    split; [vm_compute; reflexivity | ].
    intros H. apply Qeq_bool_iff in H. vm_compute in H. discriminate H.
  - split; vm_compute; reflexivity.
Qed.

(** C2, amended: on two binary64 scalars, and on two sequences of equal
    length, [jiang_calibration] returns element-wise the binary64 value of
    Horner's scheme [((0*m + c2)*m + c1)*m + c0] plus the cross term
    [(c3*(c4 + m))*y], every operation rounded. Read in exact arithmetic the
    same expression is [c0 + c1*m + c2*m^2 + c3*(c4 + m)*y]; for
    metallicity [[8.0, 8.5]] and [log O32] [[0.5, 0.3]] the two returned
    values are within 1e-9 of it. *)
Theorem jiang_calibration_binary64 (m y : float) (ms ys : list float)
  (Hlen : length ms = length ys) :
  B64.jiang_calibration (AScalar m) (AScalar y)
  = Ok (AScalar (B64.jiang_point m y)) /\
  B64.jiang_calibration (AVec ms) (AVec ys)
  = Ok (AVec (g_zip_with B64.jiang_point ms ys)) /\
  length (g_zip_with B64.jiang_point ms ys) = length ms /\
  (forall qm qy : Q,
     Exact.jiang_calibration (AScalar qm) (AScalar qy)
     = Ok (AScalar (Exact.jiang_point qm qy)) /\
     Exact.jiang_point qm qy == jiang_formula qm qy) /\
  (exists v1 v2,
     B64.jiang_calibration (AVec [8.0; 8.5]%float) (AVec [0.5; 0.3]%float)
     = Ok (AVec [v1; v2]) /\
     within 1e-9 v1 (jiang_formula 8.0 0.5) /\
     within 1e-9 v2 (jiang_formula 8.5 0.3)).
Proof.
  split; [apply g_jiang_calibration_scalar; reflexivity | ].
  split; [apply g_jiang_calibration_vec; [reflexivity | exact Hlen] | ].
  split; [now apply g_zip_with_length | ].
  split.
  - intros qm qy. split;
      [apply g_jiang_calibration_scalar; reflexivity
      | apply exact_jiang_point_formula].
  - eexists _, _. split; [vm_compute; reflexivity | ].
    split; (eexists; split; [vm_compute; reflexivity | ];
            vm_compute; reflexivity).
Qed.

Lemma jiang_calibration_binary64_witness :
  length [8.0; 8.5]%float = length [0.5; 0.3]%float /\
  B64.jiang_calibration (AVec [8.0; 8.5]%float) (AVec [0.5; 0.3]%float)
  = Ok (AVec (g_zip_with B64.jiang_point [8.0; 8.5]%float [0.5; 0.3]%float)).
Proof.
  split; [reflexivity | ].
  exact (proj1 (proj2 (jiang_calibration_binary64 8.0%float 0.5%float
                         [8.0; 8.5]%float [0.5; 0.3]%float eq_refl))).
Defined.

(** C5, as stated, fails on the code: at metallicity 8.0 the returned
    binary64 value is not [-(m - 8.54)/0.59] computed in binary64. *)
Lemma bian_calibration_o32_not_exact_binary64 :
  exists v,
    B64.bian_calibration_o32 (AScalar 8.0%float) = Ok (AScalar v) /\
    PrimFloat.eqb v (B64.bian_o32_formula 8.0) = false.
Proof. eexists. split; vm_compute; reflexivity. Qed.

(** C5, amended: [bian_calibration_o32 m] is the binary64 product of
    [-1/0.59] and [m - 8.54], each rounded, applied element-wise to a
    sequence; it compares equal to 0.0 at 8.54. Read in exact arithmetic the
    same expression is [-(m - 8.54)/0.59], linear of slope [-1/0.59]. *)
Theorem bian_calibration_o32_binary64 (m : float) (ms : list float) :
  B64.bian_calibration_o32 (AScalar m) = Ok (AScalar (B64.bian_o32_point m))
  /\
  B64.bian_calibration_o32 (AVec ms) = Ok (AVec (map B64.bian_o32_point ms))
  /\
  (exists z, B64.bian_calibration_o32 (AScalar 8.54%float) = Ok (AScalar z) /\
             PrimFloat.eqb z 0%float = true) /\
  (forall q q' : Q,
     Exact.bian_calibration_o32 (AScalar q)
     = Ok (AScalar (Exact.bian_o32_point q)) /\
     Exact.bian_o32_point q == - (q - 8.54) / 0.59 /\
     Exact.bian_o32_point q - Exact.bian_o32_point q'
     == ((-1) / 0.59) * (q - q')).
Proof.
  split; [reflexivity | ].
  split; [apply g_bian_calibration_o32_vec | ].
  split; [eexists; split; vm_compute; reflexivity | ].
  intros q q'. split; [reflexivity | ].
  split; [apply exact_bian_o32_point_formula | ].
  unfold Exact.bian_o32_point, g_bian_o32_point. field.
Qed.

(** C9, as stated, fails on the code: in binary64, with [log O32] 0.5 and
    step 0.1, the second difference at metallicity 8 differs from the one
    at metallicity 7, neither is [2*c2*h*h], and with step 1e-8 it is
    positive, where [2*c2*h^2] is negative. *)
Lemma jiang_second_difference_not_constant_binary64 :
  (exists v2 v1 v0,
     B64.jiang_calibration (AScalar (8 + 2 * 0.1)%float) (AScalar 0.5%float)
     = Ok (AScalar v2) /\
     B64.jiang_calibration (AScalar (8 + 0.1)%float) (AScalar 0.5%float)
     = Ok (AScalar v1) /\
     B64.jiang_calibration (AScalar 8%float) (AScalar 0.5%float)
     = Ok (AScalar v0) /\
     (v2 - 2 * v1 + v0)%float = B64.second_difference 8 0.5 0.1) /\
  PrimFloat.eqb (B64.second_difference 8 0.5 0.1)
                (B64.second_difference 7 0.5 0.1) = false /\
  PrimFloat.eqb (B64.second_difference 8 0.5 0.1)
                (2 * (-0.37866) * (0.1 * 0.1))%float = false /\
  PrimFloat.ltb 0%float (B64.second_difference 8 0.5 1e-8) = true.
Proof.
  split; [eexists _, _, _ | ]; repeat split; vm_compute; reflexivity.
Qed.

(** C9, amended: read in exact arithmetic, the expression that
    [jiang_calibration] evaluates has, for every metallicity [m],
    [log O32] value [y] and step [h], the second difference [2*c2*h^2]; in
    binary64 the three calls return, their second difference is the rounded
    combination of the three rounded values, and with [log O32] 0.5 and step
    0.1 it is within 1e-12 of [2*c2*h^2] at metallicity 8 and at
    metallicity 7. *)
Theorem jiang_calibration_second_difference_exact (qm qy qh : Q)
  (m y h : float) :
  (exists q2 q1 q0,
     Exact.jiang_calibration (AScalar (qm + 2 * qh)) (AScalar qy)
     = Ok (AScalar q2) /\
     Exact.jiang_calibration (AScalar (qm + qh)) (AScalar qy)
     = Ok (AScalar q1) /\
     Exact.jiang_calibration (AScalar qm) (AScalar qy) = Ok (AScalar q0) /\
     q2 - 2 * q1 + q0 == 2 * -0.37866 * (qh * qh)) /\
  (exists v2 v1 v0,
     B64.jiang_calibration (AScalar (m + 2 * h)%float) (AScalar y)
     = Ok (AScalar v2) /\
     B64.jiang_calibration (AScalar (m + h)%float) (AScalar y)
     = Ok (AScalar v1) /\
     B64.jiang_calibration (AScalar m) (AScalar y) = Ok (AScalar v0) /\
     B64.second_difference m y h = (v2 - 2 * v1 + v0)%float) /\
  within 1e-12 (B64.second_difference 8 0.5 0.1)
    (2 * -0.37866 * (0.1 * 0.1)) /\
  within 1e-12 (B64.second_difference 7 0.5 0.1)
    (2 * -0.37866 * (0.1 * 0.1)).
Proof.
  split.
  - exists (Exact.jiang_point (qm + 2 * qh) qy),
      (Exact.jiang_point (qm + qh) qy), (Exact.jiang_point qm qy).
    repeat split;
      try (apply g_jiang_calibration_scalar; reflexivity).
    unfold Exact.jiang_point, g_jiang_point, g_item, jiang_coeff;
      cbn [nth]. ring.
  - split.
    + exists (B64.jiang_point (m + 2 * h) y), (B64.jiang_point (m + h) y),
        (B64.jiang_point m y).
      repeat split; apply g_jiang_calibration_scalar; reflexivity.
    + split; (eexists; split; [vm_compute; reflexivity | ];
              vm_compute; reflexivity).
Qed.

(** * Values under broadcasting *)

(** C7, amended: sequences of unequal length neither of which has length
    one make [jiang_calibration] raise NumPy's broadcasting [ValueError],
    with no result; a sequence of length one is stretched over the other:
    the result has the other sequence's length and its entry [i] is the
    value [jiang_calibration] returns for the single element and entry [i]
    of the other sequence. *)
Theorem jiang_calibration_unequal_lengths (ms ys : list Q)
  (Hne : length ms <> length ys) :
  (length ms <> 1%nat -> length ys <> 1%nat ->
   jiang_calibration (Vec ms) (Vec ys) = Raise (ValueError broadcast_msg)) /\
  (length ms = 1%nat ->
   exists m vs,
     ms = [m] /\
     jiang_calibration (Vec ms) (Vec ys) = Ok (Vec vs) /\
     length vs = length ys /\
     forall i y, nth_error ys i = Some y ->
       exists v, nth_error vs i = Some v /\
                 jiang_calibration (Scalar m) (Scalar y) = Ok (Scalar v)) /\
  (length ys = 1%nat ->
   exists y vs,
     ys = [y] /\
     jiang_calibration (Vec ms) (Vec ys) = Ok (Vec vs) /\
     length vs = length ms /\
     forall i m, nth_error ms i = Some m ->
       exists v, nth_error vs i = Some v /\
                 jiang_calibration (Scalar m) (Scalar y) = Ok (Scalar v)).
Proof.
  split; [ | split].
  - intros; now apply jiang_calibration_mismatch.
  - intros H1. destruct ms as [|m [|? ?]]; try discriminate.
    exists m, (map (jiang_point m) ys).
    split; [reflexivity | ].
    split; [apply jiang_calibration_stretch_l; simpl in Hne; congruence | ].
    split; [apply length_map | ].
    intros i y Hy. exists (jiang_point m y).
    split; [rewrite nth_error_map, Hy; reflexivity
           | apply jiang_calibration_scalar].
  - intros H1. destruct ys as [|y [|? ?]]; try discriminate.
    exists y, (map (fun m => jiang_point m y) ms).
    split; [reflexivity | ].
    split; [apply jiang_calibration_stretch_r; simpl in Hne; congruence | ].
    split; [apply length_map | ].
    intros i m Hm. exists (jiang_point m y).
    split; [rewrite nth_error_map, Hm; reflexivity
           | apply jiang_calibration_scalar].
Qed.

Lemma jiang_calibration_unequal_lengths_witness :
  length [8.0; 8.5; 9.0] <> length [0.5; 0.3] /\
  jiang_calibration (Vec [8.0; 8.5; 9.0]) (Vec [0.5; 0.3])
  = Raise (ValueError broadcast_msg).
Proof.
  split; [discriminate | ].
  apply (jiang_calibration_unequal_lengths [8.0; 8.5; 9.0] [0.5; 0.3]);
    discriminate.
Defined.

(** X2: with a scalar metallicity and an array of [log O32] values, or an
    array of metallicities and a scalar [log O32], [jiang_calibration]
    returns an array of the array operand's length whose entry [i] is the
    value it returns for the scalar and entry [i] of the array. *)
Theorem jiang_calibration_mixed_shapes (m y : Q) (ms ys : list Q) :
  (exists vs,
     jiang_calibration (Scalar m) (Vec ys) = Ok (Vec vs) /\
     length vs = length ys /\
     forall i y', nth_error ys i = Some y' ->
       exists v, nth_error vs i = Some v /\
                 jiang_calibration (Scalar m) (Scalar y') = Ok (Scalar v)) /\
  (exists vs,
     jiang_calibration (Vec ms) (Scalar y) = Ok (Vec vs) /\
     length vs = length ms /\
     forall i m', nth_error ms i = Some m' ->
       exists v, nth_error vs i = Some v /\
                 jiang_calibration (Scalar m') (Scalar y) = Ok (Scalar v)).
Proof.
  split.
  - exists (map (jiang_point m) ys).
    split; [apply jiang_calibration_scalar_vec | ].
    split; [apply length_map | ].
    intros i y' Hy. exists (jiang_point m y').
    split; [rewrite nth_error_map, Hy; reflexivity
           | apply jiang_calibration_scalar].
  - exists (map (fun m' => jiang_point m' y) ms).
    split; [apply jiang_calibration_vec_scalar | ].
    split; [apply length_map | ].
    intros i m' Hm. exists (jiang_point m' y).
    split; [rewrite nth_error_map, Hm; reflexivity
           | apply jiang_calibration_scalar].
Qed.

Section ComparisonColumns.

Variable log10 : Q -> Q.

(** X9: after a successful run of [jiang_comparison] the columns
    [valid_id], [lR23] and [jR23_det] have one entry per detected row and
    are aligned with [detect]: at position [aa] they hold the bin identifier
    and the observed [log R23] of the row [detect[aa]], whose flag is 1.0,
    and the value [jiang_calibration] returns for that row's metallicity and
    [log O32]. *)
Theorem jiang_comparison_annotation_aligned
  (validation : list validation_row) (temp_tab : list derived_row)
  (derived derived_mact : list catalog_row) (out : jiang_result)
  (Hrun : jiang_comparison log10 validation temp_tab derived derived_mact
          = Ok out) :
  exists preds,
    j_jR23_det out = Vec preds /\
    length (j_valid_id out) = length (j_detect out) /\
    length (j_lR23 out) = length (j_detect out) /\
    length preds = length (j_detect out) /\
    forall aa i, nth_error (j_detect out) aa = Some i ->
      exists flag row p,
        nth_error validation i = Some flag /\ Detection flag == 1.0 /\
        nth_error temp_tab i = Some row /\
        nth_error (j_valid_id out) aa = Some (bin_ID row) /\
        nth_error (j_lR23 out) aa = Some (logR23_Composite row) /\
        nth_error preds aa = Some p /\
        jiang_calibration (Scalar (metallicity row))
          (Scalar (logO32_Composite row)) = Ok (Scalar p).
Proof.
  destruct (jiang_comparison_inv _ _ _ _ _ _ Hrun)
    as [Hdet [Hid [HlR [HlO [Hmet Hcal]]]]].
  apply take_nth in Hid as [Lid Nid]. apply take_nth in HlR as [LlR NlR].
  apply take_nth in HlO as [LlO NlO]. apply take_nth in Hmet as [Lmet Nmet].
  rewrite jiang_calibration_vec in Hcal by congruence.
  injection Hcal as Hcal.
  exists (zip_with jiang_point (j_metal_det out) (j_lO32 out)).
  split; [now symmetry | ]. split; [exact Lid | ]. split; [exact LlR | ].
  split; [rewrite zip_with_length; congruence | ].
  intros aa i Hi.
  assert (Hin : In i (j_detect out)) by (eapply nth_error_In; eauto).
  rewrite Hdet in Hin.
  apply np_where_In, np_equal_nth in Hin as [x [Hx Hx1]].
  rewrite nth_error_map in Hx.
  destruct (nth_error validation i) as [flag|] eqn:Hflag; [ | discriminate].
  cbn in Hx; injection Hx as <-.
  specialize (Nid _ _ Hi). specialize (NlR _ _ Hi).
  specialize (NlO _ _ Hi). specialize (Nmet _ _ Hi).
  rewrite nth_error_map in Nid, NlR, NlO, Nmet.
  assert (Hk : (aa < length (j_detect out))%nat)
    by (apply nth_error_Some; congruence).
  destruct (nth_error temp_tab i) as [row|] eqn:Hrow.
  2:{ cbn in Nid. apply nth_error_None in Nid. lia. }
  cbn in Nid, NlR, NlO, Nmet.
  exists flag, row, (jiang_point (metallicity row) (logO32_Composite row)).
  split; [reflexivity | ]. split; [exact Hx1 | ].
  split; [reflexivity | ]. split; [exact Nid | ]. split; [exact NlR | ].
  split; [now apply nth_error_zip_with | apply jiang_calibration_scalar].
Qed.

End ComparisonColumns.

Lemma jiang_comparison_annotation_aligned_witness :
  exists out preds,
    jiang_comparison (fun x => x)
      [ {| Detection := 0.5 |}; {| Detection := 1.0 |} ]
      [ {| bin_ID := 7; logR23_Composite := 0.8; logO32_Composite := 0.5;
           metallicity := 8.0 |};
        {| bin_ID := 9; logR23_Composite := 0.9; logO32_Composite := 0.3;
           metallicity := 8.5 |} ]
      [ {| R23 := 6; O32 := 2; OH := 8.1 |} ] [] = Ok out /\
    j_jR23_det out = Vec preds /\
    j_valid_id out = [9%nat] /\
    length preds = length (j_detect out).
Proof.
  eexists.
  match goal with
  | |- exists preds, ?run = Ok ?o /\ _ =>
      destruct (jiang_comparison_annotation_aligned (fun x => x) _ _ _ _ o
                  (eq_refl : run = Ok o))
        as [preds [Hp [_ [_ [Hl _]]]]]
  end.
  exists preds. split; [reflexivity | ].
  split; [exact Hp | split; [reflexivity | exact Hl]].
Defined.

(** * The pooled statistics in binary64 *)

